(** * Start-up sequence of the release-service controller manager

    A shallow embedding of [main.go] (package [main]) and of the
    [EnabledWebhooks] slice (package [webhooks]).

    Part I is the embedding, Part II the vocabulary in which the properties
    are stated, Part III the proof machinery and Parts IV and V the
    properties.

    [main] is straight-line code that talks to collaborators living outside
    the two source files: the controller-runtime library, the [kcp] helper
    package, the controllers and the webhooks.  Their answers are collected in
    a [World]; the process itself is a function from a [World] and a start
    [State] (process environment, empty event log) to an [Outcome] and the
    final [State].  Every call to a collaborator and every log line is
    appended to the event log, so that ordering properties can be read off
    the log. *)

From Stdlib Require Import ZArith.
From stdpp Require Import base option list gmap strings fin_maps.

Local Open Scope string_scope.
Local Open Scope Z_scope.
Local Open Scope list_scope.

(** * Part I: the program *)

(** ** Data *)

(** A Go [error] value that is not nil; [option error] is a Go [error]. *)
Definition error : Type := string.

(** [rest.Config]: [main] reads only [Host]; everything else (credentials,
    TLS material, ...) is kept as one opaque component. *)
Record RestConfig : Type := mkRestConfig {
  Host : string;
  Credentials : string
}.

(** [runtime.Scheme], as the list of the type groups added to it. *)
Definition Scheme : Type := list string.

(** The fields of [ctrl.Options] that [main] fills in.
    [LeaderElectionConfig] is a [*rest.Config]. *)
Record Options : Type := mkOptions {
  OptScheme : Scheme;
  MetricsBindAddress : string;
  Port : Z;
  HealthProbeBindAddress : string;
  LeaderElection : bool;
  LeaderElectionID : string;
  LeaderElectionConfig : option RestConfig
}.

(** The two constructors of a manager used by [main]. *)
Inductive ManagerKind : Type :=
| ClusterAware   (* kcp.NewClusterAwareManager *)
| Standard.      (* ctrl.NewManager *)

(** [ctrl.Manager], identified by how it was built. *)
Record Manager : Type := mkManager {
  mgrKind : ManagerKind;
  mgrConfig : RestConfig;
  mgrOptions : Options
}.

(** The webhook types of the repository. *)
Inductive Webhook : Type :=
| Author
| Release
| ReleasePlan
| ReleasePlanAdmission.

(** [webhooks.EnabledWebhooks] *)
Definition EnabledWebhooks : list Webhook :=
  [Author; Release; ReleasePlan; ReleasePlanAdmission].

(** The name under which [main] logs a failed webhook registration. *)
Definition webhookName (k : Webhook) : string :=
  match k with
  | Author => "Author"
  | Release => "Release"
  | ReleasePlan => "ReleasePlan"
  | ReleasePlanAdmission => "ReleasePlanAdmission"
  end.

(** ** Collaborators *)

(** The calls of [main] that leave the process (or change its environment)
    and answer with an [error]. *)
Inductive Call : Type :=
| NewClusterAwareManager (cfg : RestConfig) (options : Options)
| NewManager (cfg : RestConfig) (options : Options)
| Setenv (key value : string)
| SetupControllers (mgr : Manager)
| SetupWebhookWithManager (k : Webhook) (mgr : Manager)
| AddHealthzCheck (name : string) (mgr : Manager)
| AddReadyzCheck (name : string) (mgr : Manager)
| Start (mgr : Manager).

(** What the log of a run records. *)
Inductive Event : Type :=
| EvInfo (msg : string) (keysAndValues : list (string * string))
| EvError (err : error) (msg : string) (keysAndValues : list (string * string))
| EvIsKcpApiGroupPresent (cfg : RestConfig)
| EvGetRestConfigForApiExport (cfg : RestConfig) (apiExportName : string)
| EvCall (c : Call).

(** [mgr.Start] blocks until the manager stops; it may never return. *)
Inductive StartResult : Type :=
| Blocks
| Returns (err : option error).

(** The answers of the outside world during one run.  The flags are the
    values left in the variables of [main] by [flag.Parse]. *)
Record World : Type := mkWorld {
  apiExportName : string;
  metricsAddr : string;
  probeAddr : string;
  enableLeaderElection : bool;
  (** [ctrl.GetConfigOrDie]: [None] when it dies *)
  GetConfig : option RestConfig;
  (** [kcpUtils.IsKcpApiGroupPresent] *)
  IsKcpApiGroupPresent : RestConfig → bool;
  (** [kcpUtils.GetRestConfigForApiExport]: a [*rest.Config] and an [error] *)
  GetRestConfigForApiExport :
    RestConfig → string → option RestConfig * option error;
  (** the [error] answered to a [Call]; for [Start], the error it returns
      when it returns *)
  fails : Call → option error;
  (** whether [mgr.Start] returns *)
  startReturns : Manager → bool
}.

(** ** Process state and outcomes *)

Record State : Type := mkState {
  env : gmap string string;   (* the process environment *)
  trace : list Event          (* the event log, oldest first *)
}.

Inductive Outcome (A : Type) : Type :=
| Normal (a : A)            (* control reaches the end of the statements *)
| Exited (code : Z)         (* os.Exit(code) *)
| Panicked (msg : string)   (* a run-time panic that nothing recovers *)
| Blocked.                  (* a call that never returns *)
Arguments Normal {A} a.
Arguments Exited {A} code.
Arguments Panicked {A} msg.
Arguments Blocked {A}.

(** The exit status of the process for the outcome of [main]: returning from
    [main] is status 0, a panic makes the Go run time exit with status 2. *)
Definition exit_status (o : Outcome unit) : option Z :=
  match o with
  | Normal _ => Some 0
  | Exited code => Some code
  | Panicked _ => Some 2
  | Blocked => None
  end.

(** ** The monad of the process *)

Definition Proc (A : Type) : Type := World → State → Outcome A * State.

#[global] Instance Proc_ret : MRet Proc := λ A a _ s, (Normal a, s).

#[global] Instance Proc_bind : MBind Proc := λ A B f m w s,
  match m w s with
  | (Normal a, s') => f a w s'
  | (Exited code, s') => (Exited code, s')
  | (Panicked msg, s') => (Panicked msg, s')
  | (Blocked, s') => (Blocked, s')
  end.

Definition emit (e : Event) : Proc unit :=
  λ _ s, (Normal tt, mkState (env s) (trace s ++ [e])).

Definition ask {A : Type} (f : World → A) : Proc A :=
  λ w s, (Normal (f w), s).

(** [os.Exit] *)
Definition os_Exit {A : Type} (code : Z) : Proc A :=
  λ _ s, (Exited code, s).

Definition panic {A : Type} (msg : string) : Proc A :=
  λ _ s, (Panicked msg, s).

(** [os.Getenv]: the empty string when the variable is not set. *)
Definition Getenv (e : gmap string string) (key : string) : string :=
  default "" (e !! key).

Definition os_Getenv (key : string) : Proc string :=
  λ _ s, (Normal (Getenv (env s) key), s).

(** [os.Setenv]: the environment changes only when no error is returned. *)
Definition os_Setenv (key value : string) : Proc (option error) :=
  λ w s,
    match fails w (Setenv key value) with
    | Some e => (Normal (Some e), mkState (env s) (trace s ++ [EvCall (Setenv key value)]))
    | None => (Normal None,
               mkState (<[key := value]> (env s)) (trace s ++ [EvCall (Setenv key value)]))
    end.

(** A call to a collaborator that answers with an [error]. *)
Definition call (c : Call) : Proc (option error) :=
  λ w s, (Normal (fails w c), mkState (env s) (trace s ++ [EvCall c])).

(** [setupLog.Info] and [setupLog.Error] *)
Definition setupLog_Info (msg : string) (kvs : list (string * string)) : Proc unit :=
  emit (EvInfo msg kvs).

Definition setupLog_Error (err : error) (msg : string) (kvs : list (string * string))
  : Proc unit :=
  emit (EvError err msg kvs).

(** [ctrl.GetConfigOrDie]: when the configuration cannot be loaded it
    reports the error through the logger of its own package, which is not
    [setupLog] and leaves no event in the log, and calls [os.Exit(1)]. *)
Definition GetConfigOrDie : Proc RestConfig :=
  λ w s,
    match GetConfig w with
    | Some cfg => (Normal cfg, s)
    | None => (Exited 1, s)
    end.

Definition kcpUtils_IsKcpApiGroupPresent (cfg : RestConfig) : Proc bool :=
  λ w s, (Normal (IsKcpApiGroupPresent w cfg),
          mkState (env s) (trace s ++ [EvIsKcpApiGroupPresent cfg])).

Definition kcpUtils_GetRestConfigForApiExport (cfg : RestConfig) (name : string)
  : Proc (option RestConfig * option error) :=
  λ w s, (Normal (GetRestConfigForApiExport w cfg name),
          mkState (env s) (trace s ++ [EvGetRestConfigForApiExport cfg name])).

(** [mgr.Start(ctx)] *)
Definition mgr_Start (mgr : Manager) : Proc (option error) :=
  λ w s,
    let s' := mkState (env s) (trace s ++ [EvCall (Start mgr)]) in
    if startReturns w mgr then (Normal (fails w (Start mgr)), s') else (Blocked, s').

(** ** main.go *)

(** The package variable [scheme], after [init] has added the five groups. *)
Definition scheme : Scheme :=
  ["clientgoscheme"; "appstudiov1alpha1"; "appstudioshared"; "hasv1alpha1";
   "tektonv1beta1"].

(** Lines 84-92: the [ctrl.Options] literal, from the local variables of
    [main]. *)
Definition newOptions (metricsAddr probeAddr : string)
    (enableLeaderElection : bool) (restConfig : RestConfig) : Options :=
  {| OptScheme := scheme;
     MetricsBindAddress := metricsAddr;
     Port := 9443;
     HealthProbeBindAddress := probeAddr;
     LeaderElection := enableLeaderElection;
     LeaderElectionID := "f3d4c01a.redhat.com";
     LeaderElectionConfig := Some restConfig |}.

(** The assignment [options.LeaderElectionConfig = restConfig] of line 102. *)
Definition setLeaderElectionConfig (options : Options) (cfg : option RestConfig)
  : Options :=
  {| OptScheme := OptScheme options;
     MetricsBindAddress := MetricsBindAddress options;
     Port := Port options;
     HealthProbeBindAddress := HealthProbeBindAddress options;
     LeaderElection := LeaderElection options;
     LeaderElectionID := LeaderElectionID options;
     LeaderElectionConfig := cfg |}.

(** Lines 84-115: the options and the manager for the detected topology. *)
Definition buildManager (restConfig : RestConfig) : Proc Manager :=
  apiExportName ← ask apiExportName;
  metricsAddr ← ask metricsAddr;
  probeAddr ← ask probeAddr;
  enableLeaderElection ← ask enableLeaderElection;
  let options := newOptions metricsAddr probeAddr enableLeaderElection restConfig in
  present ← kcpUtils_IsKcpApiGroupPresent restConfig;
  if present : bool then
    setupLog_Info "Looking up virtual workspace URL" [];;
    '(cfg, err) ← kcpUtils_GetRestConfigForApiExport restConfig apiExportName;
    match err with
    | Some e => setupLog_Error e "error looking up virtual workspace URL" []
    | None => mret tt
    end;;
    (* [cfg.Host] dereferences the pointer *)
    cfg ← match cfg with
          | Some c => mret c
          | None => panic "invalid memory address or nil pointer dereference"
          end;
    setupLog_Info "Using virtual workspace URL" [("url", Host cfg)];;
    let options := setLeaderElectionConfig options (Some restConfig) in
    err ← call (NewClusterAwareManager cfg options);
    match err with
    | Some e =>
        setupLog_Error e "unable to start cluster aware manager" [];;
        os_Exit 1
    | None => mret (mkManager ClusterAware cfg options)
    end
  else
    setupLog_Info
      "The apis.kcp.dev group is not present - creating standard manager" [];;
    err ← call (NewManager restConfig options);
    match err with
    | Some e =>
        setupLog_Error e "unable to start manager" [];;
        os_Exit 1
    | None => mret (mkManager Standard restConfig options)
    end.

(** Lines 117-124 and 126-133: the same statement for two keys. *)
Definition applyDefault (key value : string) : Proc unit :=
  v ← os_Getenv key;
  if decide (v = "") then
    err ← os_Setenv key value;
    match err with
    | Some e =>
        setupLog_Error e ("unable to setup " +:+ key +:+ " environment variable") [];;
        os_Exit 1
    | None => mret tt
    end
  else mret tt.

(** Lines 117-133 *)
Definition applyDefaults : Proc unit :=
  applyDefault "DEFAULT_RELEASE_PVC" "release-pvc";;
  applyDefault "DEFAULT_RELEASE_WORKSPACE_NAME" "release-workspace".

(** Lines 135-139 *)
Definition registerControllers (mgr : Manager) : Proc unit :=
  err ← call (SetupControllers mgr);
  match err with
  | Some e => setupLog_Error e "unable to setup controllers" [];; os_Exit 1
  | None => mret tt
  end.

(** One of the three statements of lines 144-157. *)
Definition setupWebhook (k : Webhook) (mgr : Manager) : Proc unit :=
  err ← call (SetupWebhookWithManager k mgr);
  match err with
  | Some e =>
      setupLog_Error e "unable to create webhook" [("webhook", webhookName k)];;
      os_Exit 1
  | None => mret tt
  end.

(** Lines 141-158 *)
Definition registerWebhooks (mgr : Manager) : Proc unit :=
  v ← os_Getenv "ENABLE_WEBHOOKS";
  if decide (v ≠ "false") then
    setupLog_Info "setting up webhooks" [];;
    setupWebhook Release mgr;;
    setupWebhook ReleasePlanAdmission mgr;;
    setupWebhook ReleasePlan mgr
  else mret tt.

(** Lines 162-169 *)
Definition registerProbes (mgr : Manager) : Proc unit :=
  err ← call (AddHealthzCheck "healthz" mgr);
  match err with
  | Some e => setupLog_Error e "unable to set up health check" [];; os_Exit 1
  | None => mret tt
  end;;
  err ← call (AddReadyzCheck "readyz" mgr);
  match err with
  | Some e => setupLog_Error e "unable to set up ready check" [];; os_Exit 1
  | None => mret tt
  end.

(** Lines 171-175 *)
Definition runManager (mgr : Manager) : Proc unit :=
  setupLog_Info "starting manager" [];;
  err ← mgr_Start mgr;
  match err with
  | Some e => setupLog_Error e "problem running manager" [];; os_Exit 1
  | None => mret tt
  end.

(** [main], from [ctrl.GetConfigOrDie] (line 81) on.  The lines before it
    parse the flags and set up the logger and the signal handler; the run
    starts with the flags parsed, their values being those of the [World].
    Lines 59-80 are added by [process] below. *)
Definition main : Proc unit :=
  restConfig ← GetConfigOrDie;
  mgr ← buildManager restConfig;
  applyDefaults;;
  registerControllers mgr;;
  registerWebhooks mgr;;
  registerProbes mgr;;
  runManager mgr.

(** A run of lines 81-176 from the environment [e]. *)
Definition run (w : World) (e : gmap string string) : Outcome unit * State :=
  main w (mkState e []).

(** ** The lines before [ctrl.GetConfigOrDie] *)

(** What [flag.Parse] (line 76) makes of the command line.  The flag set
    [flag.CommandLine] handles its errors by [flag.ExitOnError]: a request for
    help prints the usage and ends the process with status 0, any other
    error prints it and ends the process with status 2. *)
Inductive FlagParse : Type :=
| FlagsParsed   (* the variables of lines 60-63 hold the flags *)
| FlagHelp      (* -h, -help: os.Exit(0) *)
| FlagError.    (* an unknown flag, a value that does not parse: os.Exit(2) *)

(** What a process is started with: the result of parsing its command line,
    the flags (when they parse) and the collaborators, and the termination
    signals.

    [ctrl.SetupSignalHandler] (line 80) starts a goroutine that waits for
    SIGINT or SIGTERM: on the first one it cancels the context handed to
    [mgr.Start], on the second one it calls [os.Exit(1)].  The first signal
    is part of what [mgr.Start] answers.  The second one is [secondSignal]:
    [Some n] when the goroutine exits the process at the moment at which
    lines 81-176 have appended [n] events to the log, [None] when no second
    signal arrives. *)
Record Launch : Type := mkLaunch {
  flagParse : FlagParse;
  world : World;
  secondSignal : option nat
}.

Definition is_blocked {A} (o : Outcome A) : bool :=
  match o with
  | Blocked => true
  | _ => false
  end.

(** The second signal [sig] ends the run [r] of lines 81-176: it is handled
    before the run is over, that is when the log has no more than its final
    number of events, or at any time when the run hangs in [mgr.Start]. *)
Definition signal_hits (sig : option nat) (r : Outcome unit * State) : bool :=
  match sig with
  | Some n => (n <=? length (trace r.2))%nat || is_blocked r.1
  | None => false
  end.

(** The goroutine of [ctrl.SetupSignalHandler] beside the run [r]: a second
    signal that hits leaves the log as it is at that moment and exits with
    status 1. *)
Definition SetupSignalHandler (sig : option nat) (r : Outcome unit * State) :
    Outcome unit * list Event :=
  match sig with
  | Some n =>
      if signal_hits sig r then (Exited 1, take n (trace r.2))
      else (r.1, trace r.2)
  | None => (r.1, trace r.2)
  end.

(** Lines 59-176: the whole of [main], as the outcome of the process and its
    event log. *)
Definition process (l : Launch) (e : gmap string string) :
    Outcome unit * list Event :=
  match flagParse l with
  | FlagHelp => (Exited 0, [])
  | FlagError => (Exited 2, [])
  | FlagsParsed => SetupSignalHandler (secondSignal l) (run (world l) e)
  end.

(** ** init *)

(** [AddToScheme] of the package [group] on the scheme [s]: the error the
    package answers with and, when there is none, the scheme with the group
    added. *)
Definition AddToScheme (group : string) (addErr : string → option error)
    (s : Scheme) : option error * Scheme :=
  match addErr group with
  | Some e => (Some e, s)
  | None => (None, s ++ [group])
  end.

(** [utilruntime.Must]: panics with the error when there is one. *)
Definition utilruntime_Must (r : option error * Scheme) : Outcome unit * Scheme :=
  match r with
  | (Some e, s) => (Panicked e, s)
  | (None, s) => (Normal tt, s)
  end.

(** The next statement of [init] runs when the one before did not panic. *)
Definition init_then (r : Outcome unit * Scheme)
    (k : Scheme → Outcome unit * Scheme) : Outcome unit * Scheme :=
  match r with
  | (Normal _, s) => k s
  | _ => r
  end.

(** Lines 50-57: [init], on the empty scheme of line 46.  The result is the
    outcome and the groups whose registration completed. *)
Definition init (addErr : string → option error) : Outcome unit * Scheme :=
  init_then (utilruntime_Must (AddToScheme "clientgoscheme" addErr [])) (λ s,
  init_then (utilruntime_Must (AddToScheme "appstudiov1alpha1" addErr s)) (λ s,
  init_then (utilruntime_Must (AddToScheme "appstudioshared" addErr s)) (λ s,
  init_then (utilruntime_Must (AddToScheme "hasv1alpha1" addErr s)) (λ s,
  utilruntime_Must (AddToScheme "tektonv1beta1" addErr s))))).

(** * Part II: vocabulary of the properties *)

(** ** Reading the event log *)

(** The collaborator calls of a log, in order. *)
Fixpoint calls (tr : list Event) : list Call :=
  match tr with
  | [] => []
  | EvCall c :: tr => c :: calls tr
  | _ :: tr => calls tr
  end.

Definition is_manager_construction (c : Call) : bool :=
  match c with
  | NewClusterAwareManager _ _ | NewManager _ _ => true
  | _ => false
  end.

Definition is_webhook_registration (c : Call) : bool :=
  match c with SetupWebhookWithManager _ _ => true | _ => false end.

(** Controller, webhook and probe registrations. *)
Definition is_registration (c : Call) : bool :=
  match c with
  | SetupControllers _ | SetupWebhookWithManager _ _
  | AddHealthzCheck _ _ | AddReadyzCheck _ _ => true
  | _ => false
  end.

Definition is_start (c : Call) : bool :=
  match c with Start _ => true | _ => false end.

(** The virtual-workspace lookup was made. *)
Definition is_lookup (ev : Event) : bool :=
  match ev with EvGetRestConfigForApiExport _ _ => true | _ => false end.

(** The run entered the Run state: [mgr.Start] was called. *)
Definition reached_run (s : State) : bool :=
  existsb is_start (calls (trace s)).

(** ** Example worlds *)

Definition baseConfig : RestConfig := mkRestConfig "https://base.example:6443" "token".
Definition vwConfig : RestConfig := mkRestConfig "https://vw.example/ws1" "token".

(** A plain cluster on which every collaborator succeeds and the manager
    shuts down gracefully. *)
Definition plainWorld : World :=
  {| apiExportName := "";
     metricsAddr := ":8080";
     probeAddr := ":8081";
     enableLeaderElection := false;
     GetConfig := Some baseConfig;
     IsKcpApiGroupPresent := λ _, false;
     GetRestConfigForApiExport := λ _ _, (None, Some "no APIExport found");
     fails := λ _, None;
     startReturns := λ _, true |}.

(** A kcp cluster whose export [export-1] resolves. *)
Definition kcpWorld : World :=
  {| apiExportName := "export-1";
     metricsAddr := ":8080";
     probeAddr := ":8081";
     enableLeaderElection := true;
     GetConfig := Some baseConfig;
     IsKcpApiGroupPresent := λ _, true;
     GetRestConfigForApiExport := λ _ _, (Some vwConfig, None);
     fails := λ _, None;
     startReturns := λ _, true |}.


(** A plain cluster on which the registration of the second webhook fails. *)
Definition webhookErrorWorld : World :=
  {| apiExportName := "";
     metricsAddr := ":8080";
     probeAddr := ":8081";
     enableLeaderElection := false;
     GetConfig := Some baseConfig;
     IsKcpApiGroupPresent := λ _, false;
     GetRestConfigForApiExport := λ _ _, (None, Some "no APIExport found");
     fails := λ c,
       match c with
       | SetupWebhookWithManager ReleasePlanAdmission _ => Some "no cert"
       | _ => None
       end;
     startReturns := λ _, true |}.

(** The manager of [plainWorld]. *)
Definition plainManager : Manager :=
  mkManager Standard baseConfig (newOptions ":8080" ":8081" false baseConfig).

(** ** Calls *)

(** The webhooks of [main], in the order in which it registers them. *)
Definition mainWebhooks : list Webhook :=
  [Release; ReleasePlanAdmission; ReleasePlan].

Definition webhookCalls (mgr : Manager) (ks : list Webhook) : list Call :=
  map (λ k, SetupWebhookWithManager k mgr) ks.

(** The webhooks registered by a list of calls, in order. *)
Fixpoint webhooksOf (cs : list Call) : list Webhook :=
  match cs with
  | [] => []
  | SetupWebhookWithManager k _ :: cs => k :: webhooksOf cs
  | _ :: cs => webhooksOf cs
  end.

(** The webhooks that [main] registers when started in the environment [e]. *)
Definition registeredWebhooks (e : gmap string string) : list Webhook :=
  if decide (Getenv e "ENABLE_WEBHOOKS" ≠ "false") then mainWebhooks else [].

(** The options handed to a call that builds a manager. *)
Definition call_options (c : Call) : option Options :=
  match c with
  | NewClusterAwareManager _ options | NewManager _ options => Some options
  | _ => None
  end.

(** The manager on which a call works. *)
Definition call_manager (c : Call) : option Manager :=
  match c with
  | SetupControllers mgr | SetupWebhookWithManager _ mgr
  | AddHealthzCheck _ mgr | AddReadyzCheck _ mgr | Start mgr => Some mgr
  | _ => None
  end.

(** All the calls of a list were answered without an error. *)
Definition clean (w : World) (cs : list Call) : Prop :=
  Forall (λ c, fails w c = None) cs.

(** A call that came back with the error [err]. *)
Definition returned_error (w : World) (c : Call) (err : error) : Prop :=
  fails w c = Some err ∧ ∀ mgr, c = Start mgr → startReturns w mgr = true.

(** The options [main] builds in the world [w]. *)
Definition options (w : World) (restConfig : RestConfig) : Options :=
  newOptions (metricsAddr w) (probeAddr w) (enableLeaderElection w) restConfig.

(** ** Defaults *)

(** What the default for [key] guarantees between the environment [e] before
    and the environment [e'] after the step. *)
Definition default_applied (key value : string) (e e' : gmap string string) : Prop :=
  (e !! key = None → e' !! key = Some value) ∧
  (∀ v, e !! key = Some v → v ≠ "" → e' !! key = Some v).

(** An environment in which [key] is set to the empty string and the one in
    which it is not set are treated alike by the default-application step:
    same outcome, same events and, when the step completes, the same final
    environment, in which [key] has the value [fallback]. *)
Definition empty_like_unset (w : World) (key fallback : string) : Prop :=
  ∀ e tr, e !! key = Some "" →
    let r := applyDefaults w (mkState e tr) in
    let r' := applyDefaults w (mkState (delete key e) tr) in
    r.1 = r'.1 ∧ trace r.2 = trace r'.2 ∧
    (r.1 = Normal tt → env r.2 = env r'.2 ∧ env r.2 !! key = Some fallback).

(** ** Further vocabulary *)

(** The call that builds the manager [mgr]. *)
Definition constructor_of (mgr : Manager) : Call :=
  match mgrKind mgr with
  | ClusterAware => NewClusterAwareManager (mgrConfig mgr) (mgrOptions mgr)
  | Standard => NewManager (mgrConfig mgr) (mgrOptions mgr)
  end.

(** The two questions [main] asks about the topology. *)
Definition is_topology_query (ev : Event) : bool :=
  match ev with
  | EvIsKcpApiGroupPresent _ | EvGetRestConfigForApiExport _ _ => true
  | _ => false
  end.

(** What a run may do to the environment [e]: nothing to a variable other
    than the two defaults, and to these nothing but giving them their
    fallback; no variable is unset. *)
Definition defaults_frame (e e' : gmap string string) : Prop :=
  (∀ k, k ≠ "DEFAULT_RELEASE_PVC" → k ≠ "DEFAULT_RELEASE_WORKSPACE_NAME" →
     e' !! k = e !! k) ∧
  (e' !! "DEFAULT_RELEASE_PVC" = e !! "DEFAULT_RELEASE_PVC" ∨
   e' !! "DEFAULT_RELEASE_PVC" = Some "release-pvc") ∧
  (e' !! "DEFAULT_RELEASE_WORKSPACE_NAME" = e !! "DEFAULT_RELEASE_WORKSPACE_NAME" ∨
   e' !! "DEFAULT_RELEASE_WORKSPACE_NAME" = Some "release-workspace") ∧
  (∀ k, is_Some (e !! k) → is_Some (e' !! k)).

(** A kcp cluster on which the lookup of the export hands back nil and an
    error. *)
Definition nilLookupWorld : World :=
  {| apiExportName := "export-1";
     metricsAddr := ":8080";
     probeAddr := ":8081";
     enableLeaderElection := false;
     GetConfig := Some baseConfig;
     IsKcpApiGroupPresent := λ _, true;
     GetRestConfigForApiExport := λ _ _, (None, Some "no APIExport found");
     fails := λ _, None;
     startReturns := λ _, true |}.

(** A plain cluster on which the environment cannot be changed. *)
Definition setenvErrorWorld : World :=
  {| apiExportName := "";
     metricsAddr := ":8080";
     probeAddr := ":8081";
     enableLeaderElection := false;
     GetConfig := Some baseConfig;
     IsKcpApiGroupPresent := λ _, false;
     GetRestConfigForApiExport := λ _ _, (None, Some "no APIExport found");
     fails := λ c,
       match c with
       | Setenv _ _ => Some "invalid argument"
       | _ => None
       end;
     startReturns := λ _, true |}.

(** A plain cluster on which the manager never stops. *)
Definition runningWorld : World :=
  {| apiExportName := "";
     metricsAddr := ":8080";
     probeAddr := ":8081";
     enableLeaderElection := false;
     GetConfig := Some baseConfig;
     IsKcpApiGroupPresent := λ _, false;
     GetRestConfigForApiExport := λ _ _, (None, Some "no APIExport found");
     fails := λ _, None;
     startReturns := λ _, false |}.

(** The manager of [kcpWorld]. *)
Definition kcpManager : Manager :=
  mkManager ClusterAware vwConfig (newOptions ":8080" ":8081" true baseConfig).

(** A process whose flags parse and that sees no second signal. *)
Definition launch (w : World) : Launch := mkLaunch FlagsParsed w None.

(** [manager -h] on a plain cluster. *)
Definition helpLaunch : Launch := mkLaunch FlagHelp plainWorld None.

(** [manager -no-such-flag] on a plain cluster. *)
Definition badFlagLaunch : Launch := mkLaunch FlagError plainWorld None.

(** The second signal arrives when the registration of the second webhook
    has just failed, before the error is logged. *)
Definition signalLaunch : Launch := mkLaunch FlagsParsed webhookErrorWorld (Some 9%nat).

(** * Part III: summaries of the stages *)

(** ** Sequencing *)

(** What a non-[Normal] outcome of a statement makes of the statements after
    it. *)
Definition abort {A B : Type} (o : Outcome A) : option (Outcome B) :=
  match o with
  | Normal _ => None
  | Exited code => Some (Exited code)
  | Panicked msg => Some (Panicked msg)
  | Blocked => Some Blocked
  end.

(** A summary [R] of a statement [m]: whenever [m] runs from a state with
    environment [e] it appends some events [evs] to the log and ends with an
    outcome [o] and environment [e'] such that [R e o e' evs]. *)
Definition Summary (A : Type) : Type :=
  gmap string string → Outcome A → gmap string string → list Event → Prop.

Definition yields {A : Type} (w : World) (m : Proc A) (R : Summary A) : Prop :=
  ∀ s o s', m w s = (o, s') →
    ∃ evs, trace s' = trace s ++ evs ∧ R (env s) o (env s') evs.

(** The summary of [m ≫= f] from those of [m] and [f]. *)
Definition then_ {A B : Type} (R1 : Summary A) (R2 : A → Summary B) : Summary B :=
  λ e o e' evs,
    (∃ o1, R1 e o1 e' evs ∧ abort o1 = Some o) ∨
    (∃ a e1 ev1 ev2, R1 e (Normal a) e1 ev1 ∧ R2 a e1 o e' ev2 ∧ evs = ev1 ++ ev2).

(** A statement that leaves the environment alone. *)
Definition keeps_env {A : Type} (P : Outcome A → list Event → Prop) : Summary A :=
  λ e o e' evs, e' = e ∧ P o evs.

(** ** The stages of [main], branch by branch *)

Section Summaries.
Context (w : World).

Inductive config_loaded : Outcome RestConfig → list Event → Prop :=
| config_ok rc : GetConfig w = Some rc → config_loaded (Normal rc) []
| config_died : GetConfig w = None → config_loaded (Exited 1) [].

(** The log line of a failed lookup of the virtual workspace. *)
Definition lookupLog (err : option error) : list Event :=
  match err with
  | Some e => [EvError e "error looking up virtual workspace URL" []]
  | None => []
  end.

Definition lookupEvents (rc : RestConfig) (err : option error) : list Event :=
  [EvIsKcpApiGroupPresent rc; EvInfo "Looking up virtual workspace URL" [];
   EvGetRestConfigForApiExport rc (apiExportName w)] ++ lookupLog err.

Definition standardEvents (rc : RestConfig) : list Event :=
  [EvIsKcpApiGroupPresent rc;
   EvInfo "The apis.kcp.dev group is not present - creating standard manager" [];
   EvCall (NewManager rc (options w rc))].

Inductive built (rc : RestConfig) : Outcome Manager → list Event → Prop :=
| built_standard :
    IsKcpApiGroupPresent w rc = false →
    fails w (NewManager rc (options w rc)) = None →
    built rc (Normal (mkManager Standard rc (options w rc))) (standardEvents rc)
| built_standard_failed e :
    IsKcpApiGroupPresent w rc = false →
    fails w (NewManager rc (options w rc)) = Some e →
    built rc (Exited 1)
      (standardEvents rc ++ [EvError e "unable to start manager" []])
| built_lookup_nil err :
    IsKcpApiGroupPresent w rc = true →
    GetRestConfigForApiExport w rc (apiExportName w) = (None, err) →
    built rc (Panicked "invalid memory address or nil pointer dereference")
      (lookupEvents rc err)
| built_cluster_aware vw err :
    IsKcpApiGroupPresent w rc = true →
    GetRestConfigForApiExport w rc (apiExportName w) = (Some vw, err) →
    fails w (NewClusterAwareManager vw (options w rc)) = None →
    built rc (Normal (mkManager ClusterAware vw (options w rc)))
      (lookupEvents rc err ++
       [EvInfo "Using virtual workspace URL" [("url", Host vw)];
        EvCall (NewClusterAwareManager vw (options w rc))])
| built_cluster_aware_failed vw err e :
    IsKcpApiGroupPresent w rc = true →
    GetRestConfigForApiExport w rc (apiExportName w) = (Some vw, err) →
    fails w (NewClusterAwareManager vw (options w rc)) = Some e →
    built rc (Exited 1)
      (lookupEvents rc err ++
       [EvInfo "Using virtual workspace URL" [("url", Host vw)];
        EvCall (NewClusterAwareManager vw (options w rc));
        EvError e "unable to start cluster aware manager" []]).

(** [applyDefault key value] from the environment [e]. *)
Inductive defaulted (key value : string) (e : gmap string string)
  : Outcome unit → gmap string string → list Event → Prop :=
| defaulted_kept :
    Getenv e key ≠ "" →
    defaulted key value e (Normal tt) e []
| defaulted_set :
    Getenv e key = "" →
    fails w (Setenv key value) = None →
    defaulted key value e (Normal tt) (<[key := value]> e)
      [EvCall (Setenv key value)]
| defaulted_failed err :
    Getenv e key = "" →
    fails w (Setenv key value) = Some err →
    defaulted key value e (Exited 1) e
      [EvCall (Setenv key value);
       EvError err ("unable to setup " +:+ key +:+ " environment variable") []].

Definition defaults_applied : Summary unit :=
  then_ (defaulted "DEFAULT_RELEASE_PVC" "release-pvc")
    (λ _, defaulted "DEFAULT_RELEASE_WORKSPACE_NAME" "release-workspace").

Inductive controllers_registered (mgr : Manager)
  : Outcome unit → list Event → Prop :=
| controllers_ok :
    fails w (SetupControllers mgr) = None →
    controllers_registered mgr (Normal tt) [EvCall (SetupControllers mgr)]
| controllers_failed e :
    fails w (SetupControllers mgr) = Some e →
    controllers_registered mgr (Exited 1)
      [EvCall (SetupControllers mgr);
       EvError e "unable to setup controllers" []].

Inductive webhooks_registered (mgr : Manager) (e : gmap string string)
  : Outcome unit → list Event → Prop :=
| webhooks_disabled :
    Getenv e "ENABLE_WEBHOOKS" = "false" →
    webhooks_registered mgr e (Normal tt) []
| webhooks_ok :
    Getenv e "ENABLE_WEBHOOKS" ≠ "false" →
    clean w (webhookCalls mgr mainWebhooks) →
    webhooks_registered mgr e (Normal tt)
      (EvInfo "setting up webhooks" [] ::
       map EvCall (webhookCalls mgr mainWebhooks))
| webhooks_failed done k todo err :
    Getenv e "ENABLE_WEBHOOKS" ≠ "false" →
    mainWebhooks = done ++ k :: todo →
    clean w (webhookCalls mgr done) →
    fails w (SetupWebhookWithManager k mgr) = Some err →
    webhooks_registered mgr e (Exited 1)
      (EvInfo "setting up webhooks" [] ::
       map EvCall (webhookCalls mgr done) ++
       [EvCall (SetupWebhookWithManager k mgr);
        EvError err "unable to create webhook" [("webhook", webhookName k)]]).

Definition webhooks_summary (mgr : Manager) : Summary unit :=
  λ e o e' evs, e' = e ∧ webhooks_registered mgr e o evs.

Inductive probes_registered (mgr : Manager) : Outcome unit → list Event → Prop :=
| probes_ok :
    fails w (AddHealthzCheck "healthz" mgr) = None →
    fails w (AddReadyzCheck "readyz" mgr) = None →
    probes_registered mgr (Normal tt)
      [EvCall (AddHealthzCheck "healthz" mgr);
       EvCall (AddReadyzCheck "readyz" mgr)]
| probes_healthz_failed e :
    fails w (AddHealthzCheck "healthz" mgr) = Some e →
    probes_registered mgr (Exited 1)
      [EvCall (AddHealthzCheck "healthz" mgr);
       EvError e "unable to set up health check" []]
| probes_readyz_failed e :
    fails w (AddHealthzCheck "healthz" mgr) = None →
    fails w (AddReadyzCheck "readyz" mgr) = Some e →
    probes_registered mgr (Exited 1)
      [EvCall (AddHealthzCheck "healthz" mgr);
       EvCall (AddReadyzCheck "readyz" mgr);
       EvError e "unable to set up ready check" []].

Inductive manager_ran (mgr : Manager) : Outcome unit → list Event → Prop :=
| manager_stopped :
    startReturns w mgr = true →
    fails w (Start mgr) = None →
    manager_ran mgr (Normal tt)
      [EvInfo "starting manager" []; EvCall (Start mgr)]
| manager_failed e :
    startReturns w mgr = true →
    fails w (Start mgr) = Some e →
    manager_ran mgr (Exited 1)
      [EvInfo "starting manager" []; EvCall (Start mgr);
       EvError e "problem running manager" []]
| manager_runs_forever :
    startReturns w mgr = false →
    manager_ran mgr Blocked
      [EvInfo "starting manager" []; EvCall (Start mgr)].

(** The stages of [main] after the defaults are applied. *)
Definition registered (mgr : Manager) : Summary unit :=
  then_ (keeps_env (controllers_registered mgr)) (λ _,
  then_ (webhooks_summary mgr) (λ _,
  then_ (keeps_env (probes_registered mgr)) (λ _,
  keeps_env (manager_ran mgr)))).

Definition main_ran : Summary unit :=
  then_ (keeps_env config_loaded) (λ rc,
  then_ (keeps_env (built rc)) (λ mgr,
  then_ defaults_applied (λ _, registered mgr))).
End Summaries.

(** ** The summaries hold *)

Lemma bind_inv {A B : Type} (m : Proc A) (f : A → Proc B) w s o s' :
  (m ≫= f) w s = (o, s') →
  (∃ o1, m w s = (o1, s') ∧ abort o1 = Some o) ∨
  (∃ a s1, m w s = (Normal a, s1) ∧ f a w s1 = (o, s')).
Proof.
  unfold mbind, Proc_bind.
  destruct (m w s) as [[a|code|msg|] s1]; cbn beta iota; intros H.
  - right. eauto.
  - left. injection H as <- <-. eauto.
  - left. injection H as <- <-. eauto.
  - left. injection H as <- <-. eauto.
Qed.

Lemma abort_Normal {A B : Type} (o : Outcome A) (b : B) :
  abort o = Some (Normal b) → False.
Proof. destruct o; discriminate. Qed.

Lemma yields_bind {A B : Type} w (m : Proc A) (f : A → Proc B) R1 R2 :
  yields w m R1 → (∀ a, yields w (f a) (R2 a)) →
  yields w (m ≫= f) (then_ R1 R2).
Proof.
  intros Hm Hf s o s' [(o1 & H1 & Ho)|(a & s1 & H1 & H2)]%bind_inv.
  - apply Hm in H1 as (evs & Htr & HR).
    exists evs. split; [done|]. left. eauto.
  - apply Hm in H1 as (ev1 & Htr1 & HR1).
    apply Hf in H2 as (ev2 & Htr2 & HR2).
    exists (ev1 ++ ev2). split.
    + by rewrite Htr2, Htr1, (assoc_L (++)).
    + right. by exists a, (env s1), ev1, ev2.
Qed.

Ltac unfold_proc :=
  cbv [mbind mret Proc_bind Proc_ret emit ask os_Exit panic os_Getenv os_Setenv
       call setupLog_Info setupLog_Error GetConfigOrDie
       kcpUtils_IsKcpApiGroupPresent kcpUtils_GetRestConfigForApiExport
       mgr_Start];
  cbn [env trace].

Ltac branch :=
  match goal with
  | |- context [GetConfig ?w] => destruct (GetConfig w) as [?cfg|] eqn:?
  | |- context [IsKcpApiGroupPresent ?w ?c] =>
      destruct (IsKcpApiGroupPresent w c) eqn:?
  | |- context [GetRestConfigForApiExport ?w ?c ?n] =>
      destruct (GetRestConfigForApiExport w c n) as [[?vw|] [?e|]] eqn:?
  | |- context [match fails ?w ?c with _ => _ end] =>
      destruct (fails w c) as [?e|] eqn:?
  | |- context [startReturns ?w ?m] => destruct (startReturns w m) eqn:?
  | |- context [decide ?P] => destruct (decide P)
  end; cbv beta iota.

(** Runs a stage through all its branches; what is left is to show, branch
    by branch, that the summary holds of the outcome and the events. *)
Ltac walk_stage :=
  intros ? ? ?; unfold_proc; repeat branch; intros [= <- <-]; cbn [env trace];
  eexists;
  (split;
   [ rewrite <- ?(assoc_L (++)); cbn [app];
     first [reflexivity | symmetry; apply app_nil_r] | ]).

Section Stages.
Context (w : World).

Lemma GetConfigOrDie_yields :
  yields w GetConfigOrDie (keeps_env (config_loaded w)).
Proof.
  walk_stage.
  all: split; [reflexivity|].
  - by apply config_ok.
  - by apply config_died.
Qed.

Lemma buildManager_yields rc :
  yields w (buildManager rc) (keeps_env (built w rc)).
Proof.
  unfold buildManager. walk_stage.
  all: split; [reflexivity|].
  - apply (built_cluster_aware_failed w rc _ (Some _)); done.
  - apply (built_cluster_aware w rc _ (Some _)); done.
  - apply (built_cluster_aware_failed w rc _ None); done.
  - apply (built_cluster_aware w rc _ None); done.
  - apply (built_lookup_nil w rc (Some _)); done.
  - apply (built_lookup_nil w rc None); done.
  - by apply built_standard_failed.
  - by apply built_standard.
Qed.

Lemma applyDefault_yields key value :
  yields w (applyDefault key value) (defaulted w key value).
Proof.
  unfold applyDefault. walk_stage.
  - by apply defaulted_failed.
  - by apply defaulted_set.
  - by apply defaulted_kept.
Qed.

Lemma applyDefaults_yields : yields w applyDefaults (defaults_applied w).
Proof.
  apply yields_bind; [|intros _]; apply applyDefault_yields.
Qed.

Lemma registerControllers_yields mgr :
  yields w (registerControllers mgr) (keeps_env (controllers_registered w mgr)).
Proof.
  unfold registerControllers. walk_stage.
  all: split; [reflexivity|].
  - by apply controllers_failed.
  - by apply controllers_ok.
Qed.

Lemma registerWebhooks_yields mgr :
  yields w (registerWebhooks mgr) (webhooks_summary w mgr).
Proof.
  unfold registerWebhooks, setupWebhook. walk_stage.
  all: split; [reflexivity|].
  - apply (webhooks_failed w mgr _ [] Release [ReleasePlanAdmission; ReleasePlan]);
      [done | done | by repeat constructor | done].
  - apply (webhooks_failed w mgr _ [Release] ReleasePlanAdmission [ReleasePlan]);
      [done | done | by repeat constructor | done].
  - apply (webhooks_failed w mgr _ [Release; ReleasePlanAdmission] ReleasePlan []);
      [done | done | by repeat constructor | done].
  - apply webhooks_ok; [done | by repeat constructor].
  - apply webhooks_disabled. by apply dec_stable.
Qed.

Lemma registerProbes_yields mgr :
  yields w (registerProbes mgr) (keeps_env (probes_registered w mgr)).
Proof.
  unfold registerProbes. walk_stage.
  all: split; [reflexivity|].
  - by apply probes_healthz_failed.
  - by apply probes_readyz_failed.
  - by apply probes_ok.
Qed.

Lemma runManager_yields mgr :
  yields w (runManager mgr) (keeps_env (manager_ran w mgr)).
Proof.
  unfold runManager. walk_stage.
  all: split; [reflexivity|].
  - by apply manager_failed.
  - by apply manager_stopped.
  - by apply manager_runs_forever.
Qed.

Lemma main_yields : yields w main (main_ran w).
Proof.
  unfold main, main_ran, registered.
  apply yields_bind; [apply GetConfigOrDie_yields | intros rc].
  apply yields_bind; [apply buildManager_yields | intros mgr].
  apply yields_bind; [apply applyDefaults_yields | intros _].
  apply yields_bind; [apply registerControllers_yields | intros _].
  apply yields_bind; [apply registerWebhooks_yields | intros _].
  apply yields_bind; [apply registerProbes_yields | intros _].
  apply runManager_yields.
Qed.

Lemma run_inv e o s :
  run w e = (o, s) → main_ran w e o (env s) (trace s).
Proof.
  intros (evs & -> & H)%main_yields. exact H.
Qed.
End Stages.

(** ** Lists and environments *)

Lemma calls_app tr1 tr2 : calls (tr1 ++ tr2) = calls tr1 ++ calls tr2.
Proof.
  induction tr1 as [|[] tr1 IH]; cbn; by rewrite ?IH.
Qed.

Lemma mainWebhooks_split done k todo :
  mainWebhooks = done ++ k :: todo →
  (done = [] ∧ k = Release ∧ todo = [ReleasePlanAdmission; ReleasePlan]) ∨
  (done = [Release] ∧ k = ReleasePlanAdmission ∧ todo = [ReleasePlan]) ∨
  (done = [Release; ReleasePlanAdmission] ∧ k = ReleasePlan ∧ todo = []).
Proof.
  unfold mainWebhooks.
  destruct done as [|a [|b [|c done]]]; cbn; intros H; simplify_eq; auto.
  by destruct done.
Qed.

(** [main] registers webhooks of the repository only, each at most once. *)
Lemma mainWebhooks_enabled : mainWebhooks ⊆ EnabledWebhooks ∧ NoDup mainWebhooks.
Proof.
  split.
  - intros k _. apply list_elem_of_In. destruct k; cbn; auto.
  - unfold mainWebhooks.
    repeat (apply NoDup_cons; split;
            [rewrite list_elem_of_In; cbn; intuition discriminate|]).
    apply NoDup_nil_2.
Qed.

Lemma skip_clean w c c' cs err :
  fails w c' = None → fails w c = Some err → c ∈ c' :: cs → c ∈ cs.
Proof. intros Hn Hf [->|Hc]%elem_of_cons; [congruence|done]. Qed.

Lemma split_here {A : Type} (l : list A) : l = [] ++ l.
Proof. reflexivity. Qed.

Lemma split_later {A : Type} (x : A) l pre rest :
  l = pre ++ rest → x :: l = (x :: pre) ++ rest.
Proof. by intros ->. Qed.

Lemma Getenv_unset e k : e !! k = None → Getenv e k = "".
Proof. unfold Getenv. by intros ->. Qed.

Lemma Getenv_set e k v : e !! k = Some v → Getenv e k = v.
Proof. unfold Getenv. by intros ->. Qed.

Lemma Getenv_insert_ne e k k' v : k ≠ k' → Getenv (<[k := v]> e) k' = Getenv e k'.
Proof. intros Hne. unfold Getenv. by rewrite lookup_insert_ne. Qed.

Lemma Getenv_insert_eq e k v : Getenv (<[k := v]> e) k = v.
Proof. unfold Getenv. by rewrite lookup_insert_eq. Qed.

Lemma Getenv_delete_eq e k : Getenv (delete k e) k = "".
Proof. unfold Getenv. by rewrite lookup_delete_eq. Qed.

Lemma Getenv_delete_ne e k k' : k ≠ k' → Getenv (delete k e) k' = Getenv e k'.
Proof. intros Hne. unfold Getenv. by rewrite lookup_delete_ne. Qed.

(** ** Case analysis of a run *)

(** Splits the summary [H] of a sequence into the case where its first
    statement (summary [H1]) ends the process and the case where it
    completes. *)
Ltac split_stage H H1 :=
  hnf in H;
  destruct H as [(?o & H1 & ?Habort) | (?a & ?e & ?ev & ?ev' & H1 & H & ->)].

(** The seven places where a run of [main] can end. *)
Ltac stages H :=
  let H1 := fresh "Hconfig" in
  let H2 := fresh "Hbuilt" in
  let H3 := fresh "Hdefaults" in
  let H4 := fresh "Hcontrollers" in
  let H5 := fresh "Hwebhooks" in
  let H6 := fresh "Hprobes" in
  unfold main_ran, registered in H;
  split_stage H H1; [|
  split_stage H H2; [|
  split_stage H H3; [|
  split_stage H H4; [|
  split_stage H H5; [|
  split_stage H H6 ]]]]].

Ltac invert H := inversion H; subst; clear H.

(** Replaces every stage summary by the branches its stage can take. *)
Ltac inv_stages :=
  repeat match goal with
  | H : keeps_env _ _ _ _ _ |- _ => destruct H as [? H]
  | H : webhooks_summary _ _ _ _ _ _ |- _ => destruct H as [? H]
  | H : defaults_applied _ _ _ _ _ |- _ =>
      destruct H as [(? & H & ?) | (? & ? & ? & ? & H & ? & ->)]
  | H : config_loaded _ _ _ |- _ => invert H
  | H : built _ _ _ _ |- _ => invert H
  | H : defaulted _ _ _ _ _ _ _ |- _ => invert H
  | H : controllers_registered _ _ _ _ |- _ => invert H
  | H : webhooks_registered _ _ _ _ _ |- _ => invert H
  | H : probes_registered _ _ _ _ |- _ => invert H
  | H : manager_ran _ _ _ _ |- _ => invert H
  | H : mainWebhooks = _ ++ _ :: _ |- _ =>
      apply mainWebhooks_split in H as [(-> & -> & ->)|[(-> & -> & ->)|(-> & -> & ->)]]
  | H : abort _ = Some _ |- _ => cbn in H; first [discriminate H | injection H as <-]
  end.

(** Writes the log of a fully analysed run as a list of events. *)
Ltac show_log :=
  unfold standardEvents, lookupEvents, lookupLog, webhookCalls, mainWebhooks in *;
  repeat match goal with
  | err : option error |- _ => destruct err
  end;
  cbn [app map calls webhooksOf List.filter existsb last
       is_start is_registration is_webhook_registration
       is_manager_construction is_lookup orb] in *.

(** All the runs of [main]: [H : run w e = (o, s)] becomes, in one goal for
    each path through [main], the answers of the world on that path, with
    [o] and [s] replaced by the outcome, environment and log of the path. *)
Ltac analyse H :=
  apply run_inv in H;
  match type of H with
  | main_ran _ _ _ (env ?s) (trace ?s) => destruct s; cbn [env trace] in *
  end;
  stages H; inv_stages; show_log.

(** Membership in an explicit list of calls. *)
Ltac in_calls H :=
  repeat match type of H with
  | _ ∈ [] => by apply not_elem_of_nil in H
  | _ ∈ _ :: _ =>
      apply elem_of_cons in H as [?Heq|H]; [try discriminate; simplify_eq|]
  end.

(** Splits the facts [clean w cs] into one fact for each call. *)
Ltac clean_calls :=
  unfold clean in *;
  repeat match goal with
  | H : Forall _ (_ :: _) |- _ => apply Forall_cons in H as [? H]
  | H : Forall _ [] |- _ => clear H
  | |- Forall _ [] => apply Forall_nil_2
  | |- Forall _ (_ :: _) => apply Forall_cons; split; [assumption|]
  end.

(** [Hc : c ∈ cs] and [Hf : fails w c = Some err]: drops from the front of
    [cs] the calls that are known to have succeeded. *)
Ltac skip_clean_calls Hc Hf :=
  repeat match type of Hc with
  | _ ∈ ?c' :: _ =>
      match goal with
      | Hn : fails _ c' = None |- _ => apply (skip_clean _ _ _ _ _ Hn Hf) in Hc
      end
  end.

(** Finds [?pre] in a goal [l = ?pre ++ rest] for an explicit list [l]. *)
Ltac find_split := first [ apply split_here | apply split_later; find_split ].

(** Equality of two environments built by updates of the same one. *)
Ltac env_eq :=
  apply map_eq; intros ?;
  rewrite ?lookup_insert, ?lookup_delete; repeat case_decide; congruence.

(** ** Lemmas on single stages *)

(** The events of the stage that builds the manager, in a run that gets that
    far. *)
Lemma run_built w e o s rc :
  run w e = (o, s) → GetConfig w = Some rc →
  ∃ o1 ev1 ev2, built w rc o1 ev1 ∧ trace s = ev1 ++ ev2 ∧
    match o1 with
    | Normal _ => True
    | _ => abort o1 = Some o ∧ ev2 = []
    end.
Proof.
  intros H Hrc. apply run_inv in H. unfold main_ran in H.
  destruct s as [e' tr]; cbn [env trace] in *.
  split_stage H Hconfig; destruct Hconfig as [_ Hconfig]; invert Hconfig;
    try discriminate; try congruence.
  simplify_eq. cbn [app] in *.
  split_stage H Hbuilt; destruct Hbuilt as [_ Hbuilt].
  - exists o0, ev', []. rewrite app_nil_r.
    split; [done|]. split; [done|]. by destruct o0.
  - by eexists (Normal _), _, _.
Qed.

Lemma defaulted_Normal w k v e e' evs :
  defaulted w k v e (Normal tt) e' evs →
  (Getenv e k ≠ "" ∧ e' = e ∧ evs = []) ∨
  (Getenv e k = "" ∧ fails w (Setenv k v) = None ∧
   e' = <[k := v]> e ∧ evs = [EvCall (Setenv k v)]).
Proof. inversion 1; subst; auto. Qed.

Lemma defaulted_values w k v e e' evs :
  defaulted w k v e (Normal tt) e' evs →
  default_applied k v e e' ∧ (∀ k', k' ≠ k → e' !! k' = e !! k').
Proof.
  intros [(Hk & -> & _)|(Hk & _ & -> & _)]%defaulted_Normal.
  - repeat split; [|done..].
    by intros Hk'%Getenv_unset.
  - repeat split.
    + intros _. apply lookup_insert_eq.
    + intros v0 Hk'%Getenv_set Hv. congruence.
    + intros k' Hne. by apply lookup_insert_ne.
Qed.

Lemma applyDefaults_inv w s s' :
  applyDefaults w s = (Normal tt, s') →
  ∃ e1 ev1 ev2,
    defaulted w "DEFAULT_RELEASE_PVC" "release-pvc" (env s) (Normal tt) e1 ev1 ∧
    defaulted w "DEFAULT_RELEASE_WORKSPACE_NAME" "release-workspace" e1
      (Normal tt) (env s') ev2.
Proof.
  intros (evs & _ & [(o1 & _ & []%abort_Normal)|([] & e1 & ev1 & ev2 & H1 & H2 & _)])
    %applyDefaults_yields.
  eauto.
Qed.

Lemma applyDefault_eq w key value s :
  applyDefault key value w s =
  if decide (Getenv (env s) key = "") then
    match fails w (Setenv key value) with
    | Some e =>
        (Exited 1,
         mkState (env s)
           ((trace s ++ [EvCall (Setenv key value)]) ++
            [EvError e ("unable to setup " +:+ key +:+ " environment variable") []]))
    | None =>
        (Normal tt,
         mkState (<[key := value]> (env s)) (trace s ++ [EvCall (Setenv key value)]))
    end
  else (Normal tt, s).
Proof.
  unfold applyDefault. unfold_proc. case_decide; [|done].
  by destruct (fails w (Setenv key value)).
Qed.

Lemma applyDefault_kept w key value s :
  Getenv (env s) key ≠ "" → applyDefault key value w s = (Normal tt, s).
Proof.
  intros Hne. rewrite applyDefault_eq. by case_decide.
Qed.

Lemma applyDefault_sets w key value s s' :
  value ≠ "" → applyDefault key value w s = (Normal tt, s') →
  Getenv (env s') key ≠ "".
Proof.
  intros Hv (evs & _ & H)%applyDefault_yields.
  apply defaulted_Normal in H as [(Hk & -> & _)|(_ & _ & -> & _)]; [done|].
  by rewrite Getenv_insert_eq.
Qed.

(** One default after the other, on both sides of an equation. *)
Ltac step_default :=
  rewrite !applyDefault_eq; cbn [env trace fst snd];
  rewrite ?Getenv_insert_ne, ?Getenv_delete_ne, ?Getenv_delete_eq by done;
  repeat case_decide; try congruence;
  repeat match goal with
  | |- context [fails ?w ?c] => destruct (fails w c)
  end;
  cbn [env trace fst snd].

(** Membership in a list that computes. *)
Ltac in_list :=
  apply list_elem_of_In; vm_compute; repeat first [left; reflexivity | right].

(** * Part IV: the properties *)

(** ** Failure of the virtual-workspace lookup *)

(** When the lookup answers with an error and a configuration, [main] logs
    the error and goes on to build the cluster-aware manager on that
    configuration. *)
Lemma lookup_error_continues w e o s rc vw err :
  run w e = (o, s) → GetConfig w = Some rc →
  IsKcpApiGroupPresent w rc = true →
  GetRestConfigForApiExport w rc (apiExportName w) = (Some vw, Some err) →
  EvError err "error looking up virtual workspace URL" [] ∈ trace s ∧
  NewClusterAwareManager vw (options w rc) ∈ calls (trace s).
Proof.
  intros H Hrc Hkcp Hlookup.
  destruct (run_built _ _ _ _ _ H Hrc) as (o1 & ev1 & ev2 & Hb & -> & _).
  rewrite calls_app, !elem_of_app.
  invert Hb; try congruence.
  all: match goal with
       | H : GetRestConfigForApiExport _ _ _ = _ |- _ =>
           rewrite H in Hlookup; injection Hlookup as -> ->
       end.
  all: unfold lookupEvents, lookupLog; cbn; set_solver.
Qed.

(** When the lookup answers with a nil configuration, reading [cfg.Host]
    panics: the process dies with status 2 before any call is made. *)
Lemma lookup_nil_panics w e o s rc err :
  run w e = (o, s) → GetConfig w = Some rc →
  IsKcpApiGroupPresent w rc = true →
  GetRestConfigForApiExport w rc (apiExportName w) = (None, err) →
  o = Panicked "invalid memory address or nil pointer dereference" ∧
  exit_status o = Some 2 ∧ calls (trace s) = [].
Proof.
  intros H Hrc Hkcp Hlookup.
  destruct (run_built _ _ _ _ _ H Hrc) as (o1 & ev1 & ev2 & Hb & -> & Hab).
  invert Hb; try congruence.
  destruct Hab as [[= <-] ->].
  rewrite app_nil_r. unfold lookupEvents, lookupLog.
  repeat split. by destruct err0.
Qed.


(** ** Order of the registrations *)

(** C2: in a run that calls [mgr.Start], the calls made are some calls that
    register nothing, then the registration of the controllers, of the
    webhooks (when enabled) and of the two probes, in this order and each
    answered without an error, and [mgr.Start] last. *)
Theorem registrations_before_run w e o s :
  run w e = (o, s) → reached_run s = true →
  ∃ mgr pre,
    calls (trace s) =
      pre ++ SetupControllers mgr :: webhookCalls mgr (registeredWebhooks e) ++
      [AddHealthzCheck "healthz" mgr; AddReadyzCheck "readyz" mgr; Start mgr] ∧
    Forall (λ c, is_registration c = false ∧ is_start c = false) pre ∧
    clean w (SetupControllers mgr :: webhookCalls mgr (registeredWebhooks e) ++
             [AddHealthzCheck "healthz" mgr; AddReadyzCheck "readyz" mgr]).
Proof.
  unfold reached_run.
  intros H Hr. analyse H.
  all: try discriminate Hr.
  all: unfold registeredWebhooks; rewrite ?Getenv_insert_ne in * by done.
  all: case_decide; try congruence.
  all: unfold mainWebhooks; cbn [map app]; clean_calls.
  all: first
    [ eexists _, [_]; split; [reflexivity|]
    | eexists _, [_; _]; split; [reflexivity|]
    | eexists _, [_; _; _]; split; [reflexivity|] ].
  all: split; [ by repeat constructor | clean_calls ].
Qed.

Lemma registrations_before_run_witness :
  ∃ mgr pre,
    calls (trace (run plainWorld ∅).2) =
      pre ++ SetupControllers mgr :: webhookCalls mgr (registeredWebhooks ∅) ++
      [AddHealthzCheck "healthz" mgr; AddReadyzCheck "readyz" mgr; Start mgr] ∧
    Forall (λ c, is_registration c = false ∧ is_start c = false) pre ∧
    clean plainWorld
      (SetupControllers mgr :: webhookCalls mgr (registeredWebhooks ∅) ++
       [AddHealthzCheck "healthz" mgr; AddReadyzCheck "readyz" mgr]).
Proof.
  apply (registrations_before_run plainWorld ∅ (run plainWorld ∅).1).
  - apply surjective_pairing.
  - vm_compute. reflexivity.
Defined.

(** ** Topology and manager options *)

(** Whichever constructor builds the manager, it is given the options that
    [main] builds from the flags and the configuration of the base cluster. *)
Lemma construction_options w e o s c :
  run w e = (o, s) → c ∈ calls (trace s) → is_manager_construction c = true →
  ∃ rc, GetConfig w = Some rc ∧ call_options c = Some (options w rc).
Proof.
  intros H Hc Hk. analyse H.
  all: in_calls Hc.
  all: try discriminate Hk.
  all: eexists; split; [eassumption|reflexivity].
Qed.

(** C3: whichever constructor builds the manager, the options it is given
    carry the leader-election identity [f3d4c01a.redhat.com], the
    configuration of the base cluster as leader-election configuration (also
    when the manager itself is bound to a virtual workspace), the package
    scheme, and the metrics address, probe address and leader-election switch
    of the flags. *)
Theorem manager_options_fixed w e o s c :
  run w e = (o, s) → c ∈ calls (trace s) → is_manager_construction c = true →
  ∃ rc opts,
    GetConfig w = Some rc ∧ call_options c = Some opts ∧
    LeaderElectionID opts = "f3d4c01a.redhat.com" ∧
    LeaderElectionConfig opts = Some rc ∧
    OptScheme opts = scheme ∧
    MetricsBindAddress opts = metricsAddr w ∧
    HealthProbeBindAddress opts = probeAddr w ∧
    LeaderElection opts = enableLeaderElection w ∧
    Port opts = 9443.
Proof.
  intros H Hc Hk.
  destruct (construction_options _ _ _ _ _ H Hc Hk) as (rc & Hrc & Hopts).
  exists rc, (options w rc). by repeat split.
Qed.

Lemma manager_options_fixed_witness :
  ∃ rc opts,
    GetConfig kcpWorld = Some rc ∧
    call_options (NewClusterAwareManager vwConfig (options kcpWorld baseConfig)) =
      Some opts ∧
    LeaderElectionID opts = "f3d4c01a.redhat.com" ∧
    LeaderElectionConfig opts = Some rc ∧
    OptScheme opts = scheme ∧
    MetricsBindAddress opts = metricsAddr kcpWorld ∧
    HealthProbeBindAddress opts = probeAddr kcpWorld ∧
    LeaderElection opts = enableLeaderElection kcpWorld ∧
    Port opts = 9443.
Proof.
  apply (manager_options_fixed kcpWorld ∅ (run kcpWorld ∅).1 (run kcpWorld ∅).2).
  - apply surjective_pairing.
  - in_list.
  - reflexivity.
Defined.

(** The options do not depend on what the detection of the kcp API group
    answers: two worlds with the same flags and base configuration pass the
    same options to whichever constructor they call. *)
Lemma options_topology_independent w1 w2 e1 e2 o1 s1 o2 s2 c1 c2 :
  metricsAddr w1 = metricsAddr w2 → probeAddr w1 = probeAddr w2 →
  enableLeaderElection w1 = enableLeaderElection w2 →
  GetConfig w1 = GetConfig w2 →
  run w1 e1 = (o1, s1) → run w2 e2 = (o2, s2) →
  c1 ∈ calls (trace s1) → is_manager_construction c1 = true →
  c2 ∈ calls (trace s2) → is_manager_construction c2 = true →
  call_options c1 = call_options c2.
Proof.
  intros Hm Hp Hl Hg H1 H2 Hc1 Hk1 Hc2 Hk2.
  destruct (construction_options _ _ _ _ _ H1 Hc1 Hk1) as (rc1 & Hrc1 & ->).
  destruct (construction_options _ _ _ _ _ H2 Hc2 Hk2) as (rc2 & Hrc2 & ->).
  unfold options. rewrite Hm, Hp, Hl. congruence.
Qed.

(** C4: when the kcp API group is reported absent, the lookup of the virtual
    workspace is never made, the only manager constructor called is
    [ctrl.NewManager] on the configuration of the base cluster, and every
    later call works on the manager so built. *)
Theorem absent_group_standalone w e o s rc :
  run w e = (o, s) →
  GetConfig w = Some rc → IsKcpApiGroupPresent w rc = false →
  existsb is_lookup (trace s) = false ∧
  List.filter is_manager_construction (calls (trace s)) =
    [NewManager rc (options w rc)] ∧
  (∀ c mgr, c ∈ calls (trace s) → call_manager c = Some mgr →
     mgr = mkManager Standard rc (options w rc)).
Proof.
  intros H Hrc Hkcp. analyse H.
  all: simplify_eq; try congruence.
  all: (split; [reflexivity|]; split; [reflexivity|]).
  all: intros ? ? Hc Hm; in_calls Hc; cbn in Hm; congruence.
Qed.

Lemma absent_group_standalone_witness :
  existsb is_lookup (trace (run plainWorld ∅).2) = false ∧
  List.filter is_manager_construction (calls (trace (run plainWorld ∅).2)) =
    [NewManager baseConfig (options plainWorld baseConfig)] ∧
  (∀ c mgr, c ∈ calls (trace (run plainWorld ∅).2) → call_manager c = Some mgr →
     mgr = mkManager Standard baseConfig (options plainWorld baseConfig)).
Proof.
  apply (absent_group_standalone plainWorld ∅ (run plainWorld ∅).1).
  - apply surjective_pairing.
  - reflexivity.
  - reflexivity.
Defined.

(** ** The webhook switch *)

(** C5: once the controllers are registered, a webhook is registered if and
    only if [ENABLE_WEBHOOKS] is not the string [false] (unset reads as the
    empty string); when it is [false], the call that registers the
    controllers is followed at once by the registration of the first probe. *)
Theorem webhooks_iff_enabled w e o s mgr :
  run w e = (o, s) →
  SetupControllers mgr ∈ calls (trace s) → fails w (SetupControllers mgr) = None →
  (existsb is_webhook_registration (calls (trace s)) = true ↔
     Getenv e "ENABLE_WEBHOOKS" ≠ "false") ∧
  (Getenv e "ENABLE_WEBHOOKS" = "false" →
     ∃ pre post,
       trace s = pre ++ [EvCall (SetupControllers mgr);
                         EvCall (AddHealthzCheck "healthz" mgr)] ++ post).
Proof.
  intros H Hc Hf. analyse H.
  all: in_calls Hc.
  all: try congruence.
  all: rewrite ?Getenv_insert_ne in * by done.
  all: (split; [split; intros; first [done | congruence] | ]).
  all: intros Hoff; try congruence.
  all: eexists _, _; find_split.
Qed.

Lemma webhooks_iff_enabled_witness :
  (existsb is_webhook_registration (calls (trace (run plainWorld ∅).2)) = true ↔
     Getenv ∅ "ENABLE_WEBHOOKS" ≠ "false") ∧
  (Getenv ∅ "ENABLE_WEBHOOKS" = "false" →
     ∃ pre post,
       trace (run plainWorld ∅).2 =
         pre ++ [EvCall (SetupControllers plainManager);
                 EvCall (AddHealthzCheck "healthz" plainManager)] ++ post).
Proof.
  apply (webhooks_iff_enabled plainWorld ∅ (run plainWorld ∅).1).
  - apply surjective_pairing.
  - in_list.
  - reflexivity.
Defined.

(** ** Defaults of the environment *)

(** C6, as stated, fails on a variable that is set to the empty string:
    [DEFAULT_RELEASE_PVC] is set before the step, and the step replaces its
    value. *)
Lemma preset_empty_value_replaced :
  let e : gmap string string := {[ "DEFAULT_RELEASE_PVC" := "" ]} in
  let r := applyDefaults plainWorld (mkState e []) in
  e !! "DEFAULT_RELEASE_PVC" = Some "" ∧
  r.1 = Normal tt ∧
  env r.2 !! "DEFAULT_RELEASE_PVC" = Some "release-pvc".
Proof. vm_compute. by repeat split. Qed.

(** The values of the two variables after the defaults are applied. *)
Lemma defaults_applied_values w e e' evs :
  defaults_applied w e (Normal tt) e' evs →
  default_applied "DEFAULT_RELEASE_PVC" "release-pvc" e e' ∧
  default_applied "DEFAULT_RELEASE_WORKSPACE_NAME" "release-workspace" e e'.
Proof.
  intros [(o1 & _ & []%abort_Normal)|([] & e1 & ev1 & ev2 & Hp & Hw & _)].
  apply defaulted_values in Hp as ((Hp1 & Hp2) & Hp3).
  apply defaulted_values in Hw as ((Hw1 & Hw2) & Hw3).
  repeat split.
  - intros Hk. rewrite Hw3 by done. auto.
  - intros v Hk Hv. rewrite Hw3 by done. auto.
  - intros Hk. apply Hw1. rewrite Hp3 by done. done.
  - intros v Hk Hv. apply Hw2; [|done]. rewrite Hp3 by done. done.
Qed.

(** C6, amended: the step completes whenever [os.Setenv] does not fail, and
    after it each of the two variables has its fallback value if it was not
    set, and keeps its value if it was set to a non-empty string. *)
Theorem defaults_after_step w s :
  (fails w (Setenv "DEFAULT_RELEASE_PVC" "release-pvc") = None →
   fails w (Setenv "DEFAULT_RELEASE_WORKSPACE_NAME" "release-workspace") = None →
   ∃ s', applyDefaults w s = (Normal tt, s')) ∧
  (∀ s', applyDefaults w s = (Normal tt, s') →
     default_applied "DEFAULT_RELEASE_PVC" "release-pvc" (env s) (env s') ∧
     default_applied "DEFAULT_RELEASE_WORKSPACE_NAME" "release-workspace"
       (env s) (env s')).
Proof.
  split.
  - intros H1 H2. unfold applyDefaults, applyDefault. unfold_proc.
    repeat branch; first [congruence | eauto].
  - intros s' (evs & _ & H)%applyDefaults_yields.
    by apply defaults_applied_values in H.
Qed.

Lemma defaults_after_step_witness :
  let e : gmap string string := {[ "DEFAULT_RELEASE_PVC" := "custom-pvc" ]} in
  let s' := (applyDefaults plainWorld (mkState e [])).2 in
  default_applied "DEFAULT_RELEASE_PVC" "release-pvc" e (env s') ∧
  default_applied "DEFAULT_RELEASE_WORKSPACE_NAME" "release-workspace" e (env s').
Proof.
  intros e s'.
  apply (proj2 (defaults_after_step plainWorld (mkState e []))).
  vm_compute. reflexivity.
Defined.

(** In a run of [main] that gets to the registration of the controllers, the
    environment at the end of the run is the one the defaults left. *)
Lemma run_defaults w e o s mgr :
  run w e = (o, s) → SetupControllers mgr ∈ calls (trace s) →
  default_applied "DEFAULT_RELEASE_PVC" "release-pvc" e (env s) ∧
  default_applied "DEFAULT_RELEASE_WORKSPACE_NAME" "release-workspace" e (env s).
Proof.
  intros H Hc. apply run_inv in H.
  destruct s as [e' tr]; cbn [env trace] in *.
  stages H;
    [ inv_stages; show_log; in_calls Hc
    | inv_stages; show_log; in_calls Hc
    | inv_stages; show_log; in_calls Hc
    | | | | ].
  all: clear Hc.
  all: repeat match goal with
       | H : keeps_env _ _ _ _ _ |- _ => destruct H as [? _]
       | H : webhooks_summary _ _ _ _ _ _ |- _ => destruct H as [? _]
       end.
  all: subst.
  all: repeat match goal with u : () |- _ => destruct u end.
  all: by eapply defaults_applied_values.
Qed.

(** ** Webhook registration *)

(** C7: the webhooks registered in a run are a prefix of the fixed list
    [mainWebhooks]; a webhook registration that comes back with an error is
    the last call of the run, the process exits with status 1 and the error
    is the last line logged; and when webhooks are enabled, the first probe
    is only registered after all the webhooks were registered without an
    error. *)
Theorem webhook_failure_fatal w e o s :
  run w e = (o, s) →
  webhooksOf (calls (trace s)) `prefix_of` mainWebhooks ∧
  (∀ k mgr err,
     SetupWebhookWithManager k mgr ∈ calls (trace s) →
     fails w (SetupWebhookWithManager k mgr) = Some err →
     o = Exited 1 ∧ exit_status o = Some 1 ∧
     last (calls (trace s)) = Some (SetupWebhookWithManager k mgr) ∧
     last (trace s) =
       Some (EvError err "unable to create webhook" [("webhook", webhookName k)])) ∧
  (∀ mgr, AddHealthzCheck "healthz" mgr ∈ calls (trace s) →
     Getenv e "ENABLE_WEBHOOKS" ≠ "false" →
     webhooksOf (calls (trace s)) = mainWebhooks ∧
     clean w (webhookCalls mgr mainWebhooks)).
Proof.
  intros H. analyse H.
  all: rewrite ?Getenv_insert_ne in * by done.
  all: (split; [unfold mainWebhooks; by eexists|]).
  all: split;
    [ intros ? ? ? Hc Hf; clean_calls; skip_clean_calls Hc Hf; in_calls Hc
    | intros ? Hc Hon; in_calls Hc; try congruence ].
  all: done.
Qed.

Lemma webhook_failure_fatal_witness :
  (run webhookErrorWorld ∅).1 = Exited 1 ∧
  exit_status (run webhookErrorWorld ∅).1 = Some 1 ∧
  last (calls (trace (run webhookErrorWorld ∅).2)) =
    Some (SetupWebhookWithManager ReleasePlanAdmission plainManager) ∧
  last (trace (run webhookErrorWorld ∅).2) =
    Some (EvError "no cert" "unable to create webhook"
            [("webhook", webhookName ReleasePlanAdmission)]).
Proof.
  destruct (webhook_failure_fatal webhookErrorWorld ∅ (run webhookErrorWorld ∅).1
              (run webhookErrorWorld ∅).2 (surjective_pairing _)) as (_ & Hfatal & _).
  apply Hfatal.
  - in_list.
  - reflexivity.
Defined.

(** ** Exit status *)

(** Lines 81-176 end with status 0 only when [mgr.Start] was the last call
    and returned without an error; whenever one of the calls that build the
    manager, set a default, register the controllers, a webhook or a probe,
    or run the manager comes back with an error, they end with status 1,
    that call is the last one made and the last line logged is the error it
    returned. *)
Lemma exit_status_spec w e o s :
  run w e = (o, s) →
  (exit_status o = Some 0 →
     ∃ mgr, last (calls (trace s)) = Some (Start mgr) ∧
       startReturns w mgr = true ∧ fails w (Start mgr) = None) ∧
  (∀ c err, c ∈ calls (trace s) → returned_error w c err →
     o = Exited 1 ∧ exit_status o = Some 1 ∧ last (calls (trace s)) = Some c ∧
     ∃ msg kvs, last (trace s) = Some (EvError err msg kvs)).
Proof.
  intros H. analyse H.
  all: (split; [ intros Hst; first [discriminate Hst | eauto] | ]).
  all: intros ? ? Hc [Hf Hs]; clean_calls.
  all: skip_clean_calls Hc Hf.
  all: in_calls Hc.
  all: try (specialize (Hs _ eq_refl); congruence).
  all: simplify_eq.
  all: by eauto 10.
Qed.

(** ** The whole process *)

(** A call of a log cut short is a call of the log. *)
Lemma calls_take n tr c : c ∈ calls (take n tr) → c ∈ calls tr.
Proof.
  revert n. induction tr as [|ev tr IH]; intros [|n]; cbn; try done.
  - intros H. by apply elem_of_nil in H.
  - destruct ev; cbn; rewrite ?elem_of_cons; intros H; try by eapply IH.
    destruct H as [->|H]; [by left | right; by eapply IH].
Qed.

(** The four ways in which a process ends: at [flag.Parse], for help or on
    an error; by the second signal; as lines 81-176 end. *)
Lemma process_inv l e o tr :
  process l e = (o, tr) →
  (flagParse l = FlagHelp ∧ o = Exited 0 ∧ tr = []) ∨
  (flagParse l = FlagError ∧ o = Exited 2 ∧ tr = []) ∨
  (flagParse l = FlagsParsed ∧
   signal_hits (secondSignal l) (run (world l) e) = true ∧ o = Exited 1 ∧
   ∃ n, secondSignal l = Some n ∧ tr = take n (trace (run (world l) e).2)) ∨
  (flagParse l = FlagsParsed ∧
   signal_hits (secondSignal l) (run (world l) e) = false ∧
   ∃ s, run (world l) e = (o, s) ∧ trace s = tr).
Proof.
  unfold process, SetupSignalHandler.
  destruct (flagParse l).
  2, 3: intros [= <- <-]; auto 6.
  destruct (secondSignal l) as [n|];
    [destruct (signal_hits (Some n) _) eqn:Hh|]; intros [= <- <-].
  - do 2 right. left. eauto 10.
  - do 3 right. split; [done|]. split; [done|].
    eexists. split; [apply surjective_pairing | done].
  - do 3 right. split; [done|]. split; [done|].
    eexists. split; [apply surjective_pairing | done].
Qed.

(** With the flags parsed and no second signal the process is the run of
    lines 81-176. *)
Lemma process_run w e :
  process (launch w) e = ((run w e).1, trace (run w e).2).
Proof. reflexivity. Qed.

(** Status 0 without a run of the manager: [manager -h] ends at
    [flag.Parse] with status 0 and not a single call made.  Status 1 without
    the error in the log: a second signal handled between the failure of a
    webhook registration and the line that logs it ends the process with
    status 1, the failed call being the last event of the log. *)
Lemma help_exits_without_run :
  (exit_status (process helpLaunch ∅).1 = Some 0 ∧
   calls (process helpLaunch ∅).2 = []) ∧
  (SetupWebhookWithManager ReleasePlanAdmission plainManager
     ∈ calls (process signalLaunch ∅).2 ∧
   returned_error (world signalLaunch)
     (SetupWebhookWithManager ReleasePlanAdmission plainManager) "no cert" ∧
   exit_status (process signalLaunch ∅).1 = Some 1 ∧
   last (process signalLaunch ∅).2 =
     Some (EvCall (SetupWebhookWithManager ReleasePlanAdmission plainManager))).
Proof.
  split; [split; reflexivity|].
  split; [in_list|]. split; [split; [reflexivity | discriminate]|].
  split; vm_compute; reflexivity.
Qed.

(** C8, amended: the process exits with status 0 only when [flag.Parse]
    answered a request for help or when [mgr.Start] was the last call and
    returned without an error; whenever one of the calls that build the
    manager, set a default, register the controllers, a webhook or a probe,
    or run the manager comes back with an error, the process exits with
    status 1 and, unless the second termination signal ended it first, that
    call is the last one made and the last line logged is the error it
    returned. *)
Theorem process_exit_status l e o tr :
  process l e = (o, tr) →
  (exit_status o = Some 0 →
     flagParse l = FlagHelp ∨
     (flagParse l = FlagsParsed ∧
      ∃ mgr, last (calls tr) = Some (Start mgr) ∧
        startReturns (world l) mgr = true ∧ fails (world l) (Start mgr) = None)) ∧
  (∀ c err, c ∈ calls tr → returned_error (world l) c err →
     o = Exited 1 ∧ exit_status o = Some 1 ∧
     (signal_hits (secondSignal l) (run (world l) e) = false →
        last (calls tr) = Some c ∧
        ∃ msg kvs, last tr = Some (EvError err msg kvs))).
Proof.
  intros H.
  destruct (process_inv _ _ _ _ H)
    as [(Hp & -> & ->)|[(Hp & -> & ->)|[(Hp & Hh & -> & n & Hn & ->)
       |(Hp & Hh & s & Hr & <-)]]].
  - split; [auto|]. intros c err Hc. by apply elem_of_nil in Hc.
  - split; [discriminate|]. intros c err Hc. by apply elem_of_nil in Hc.
  - split; [discriminate|]. intros c err Hc Herr.
    split; [reflexivity|]. split; [reflexivity|]. congruence.
  - destruct (exit_status_spec _ _ _ _ Hr) as [H0 H1]. split.
    + intros Hst. right. split; [assumption | by apply H0].
    + intros c err Hc Herr.
      destruct (H1 c err Hc Herr) as (-> & ? & ? & ?). auto.
Qed.

Lemma process_exit_status_witness :
  (flagParse (launch plainWorld) = FlagHelp ∨
   (flagParse (launch plainWorld) = FlagsParsed ∧
    ∃ mgr, last (calls (process (launch plainWorld) ∅).2) = Some (Start mgr) ∧
      startReturns plainWorld mgr = true ∧ fails plainWorld (Start mgr) = None)) ∧
  ((process (launch webhookErrorWorld) ∅).1 = Exited 1 ∧
   exit_status (process (launch webhookErrorWorld) ∅).1 = Some 1 ∧
   (signal_hits None (run webhookErrorWorld ∅) = false →
      last (calls (process (launch webhookErrorWorld) ∅).2) =
        Some (SetupWebhookWithManager ReleasePlanAdmission plainManager) ∧
      ∃ msg kvs,
        last (process (launch webhookErrorWorld) ∅).2 =
          Some (EvError "no cert" msg kvs))).
Proof.
  split.
  - apply (process_exit_status (launch plainWorld) ∅ _ _ (surjective_pairing _)).
    vm_compute. reflexivity.
  - apply (process_exit_status (launch webhookErrorWorld) ∅ _ _
             (surjective_pairing _)).
    + in_list.
    + split; [reflexivity | discriminate].
Defined.

(** ** Idempotence of a default *)

(** C9: for a non-empty fallback, applying a default twice is the same as
    applying it once: same outcome, same environment, same log; after a first
    application that completes the variable is not empty and a second
    application leaves the state as it is. *)
Theorem applyDefault_idempotent w key value s :
  value ≠ "" →
  (applyDefault key value;; applyDefault key value) w s = applyDefault key value w s ∧
  (∀ s', applyDefault key value w s = (Normal tt, s') →
     Getenv (env s') key ≠ "" ∧ applyDefault key value w s' = (Normal tt, s')).
Proof.
  intros Hv.
  assert (∀ s', applyDefault key value w s = (Normal tt, s') →
     Getenv (env s') key ≠ "" ∧ applyDefault key value w s' = (Normal tt, s'))
    as Hagain.
  { intros s' Hs'. pose proof (applyDefault_sets _ _ _ _ _ Hv Hs') as Hne.
    split; [done|]. by apply applyDefault_kept. }
  split; [|done].
  unfold mbind, Proc_bind.
  destruct (applyDefault key value w s) as [[[]|code|msg|] s'] eqn:Hs'; [|done..].
  by apply Hagain.
Qed.

Lemma applyDefault_idempotent_witness :
  (applyDefault "DEFAULT_RELEASE_PVC" "release-pvc";;
   applyDefault "DEFAULT_RELEASE_PVC" "release-pvc") plainWorld (mkState ∅ []) =
  applyDefault "DEFAULT_RELEASE_PVC" "release-pvc" plainWorld (mkState ∅ []).
Proof.
  apply (applyDefault_idempotent plainWorld "DEFAULT_RELEASE_PVC" "release-pvc").
  discriminate.
Defined.

(** ** Empty and unset *)

(** C10: for each of the two keys, the step cannot tell a variable set to the
    empty string from one that is not set; when the step completes, the
    empty value has been replaced by the fallback. *)
Theorem empty_value_overwritten w :
  empty_like_unset w "DEFAULT_RELEASE_PVC" "release-pvc" ∧
  empty_like_unset w "DEFAULT_RELEASE_WORKSPACE_NAME" "release-workspace".
Proof.
  split; intros e tr He; pose proof (Getenv_set _ _ _ He) as Hg.
  all: unfold applyDefaults, mbind, Proc_bind.
  all: step_default.
  all: try done.
  all: step_default.
  all: try done.
  all: split; [done|]; split; [done|]; intros _.
  all: split; [env_eq | by simplify_map_eq].
Qed.

Lemma empty_value_overwritten_witness :
  let e : gmap string string := {[ "DEFAULT_RELEASE_WORKSPACE_NAME" := "" ]} in
  let r := applyDefaults plainWorld (mkState e []) in
  let r' := applyDefaults plainWorld
              (mkState (delete "DEFAULT_RELEASE_WORKSPACE_NAME" e) []) in
  r.1 = r'.1 ∧ trace r.2 = trace r'.2 ∧
  (r.1 = Normal tt →
   env r.2 = env r'.2 ∧
   env r.2 !! "DEFAULT_RELEASE_WORKSPACE_NAME" = Some "release-workspace").
Proof.
  intros e.
  apply (proj2 (empty_value_overwritten plainWorld) e []).
  vm_compute. reflexivity.
Defined.

(** * Part V: further properties of the code *)

(** ** Stage by stage *)

Lemma filter_none {A : Type} (f : A → bool) (l : list A) :
  Forall (λ x, f x = false) l → List.filter f l = [].
Proof.
  induction 1 as [|x l Hx _ IH]; cbn; [done|]. by rewrite Hx.
Qed.

(** The defaults call nothing but [os.Setenv], on the two keys with their
    fallbacks, and only for a key that reads as the empty string. *)
Lemma defaults_calls w e o e' evs :
  defaults_applied w e o e' evs →
  List.filter is_topology_query evs = [] ∧
  (∀ c, c ∈ calls evs →
     call_manager c = None ∧ is_manager_construction c = false ∧
     ((c = Setenv "DEFAULT_RELEASE_PVC" "release-pvc" ∧
       Getenv e "DEFAULT_RELEASE_PVC" = "") ∨
      (c = Setenv "DEFAULT_RELEASE_WORKSPACE_NAME" "release-workspace" ∧
       Getenv e "DEFAULT_RELEASE_WORKSPACE_NAME" = ""))).
Proof.
  intros H. inv_stages.
  all: rewrite ?Getenv_insert_ne in * by done.
  all: split; [reflexivity|]; cbn [app calls].
  all: intros c Hc; in_calls Hc; auto.
Qed.

(** The stages after the defaults leave the environment alone, ask nothing
    about the topology and call the manager they are given, nothing else. *)
Lemma registered_calls w mgr e o e' evs :
  registered w mgr e o e' evs →
  e' = e ∧
  List.filter is_topology_query evs = [] ∧
  (∀ c, c ∈ calls evs →
     call_manager c = Some mgr ∧ is_manager_construction c = false).
Proof.
  intros H. unfold registered in H.
  split_stage H Hcontrollers; [|
  split_stage H Hwebhooks; [|
  split_stage H Hprobes ]].
  all: inv_stages; show_log.
  all: split; [congruence|]; split; [reflexivity|].
  all: intros c Hc; in_calls Hc; auto.
Qed.

(** Both together: what a run does once the manager [mgr] is built. *)
Lemma after_build w mgr e o e' evs :
  then_ (defaults_applied w) (λ _, registered w mgr) e o e' evs →
  List.filter is_topology_query evs = [] ∧
  List.filter is_manager_construction (calls evs) = [] ∧
  (∀ c mgr', c ∈ calls evs → call_manager c = Some mgr' → mgr' = mgr) ∧
  (∀ k v, Setenv k v ∈ calls evs →
     Getenv e k = "" ∧
     ((k = "DEFAULT_RELEASE_PVC" ∧ v = "release-pvc") ∨
      (k = "DEFAULT_RELEASE_WORKSPACE_NAME" ∧ v = "release-workspace"))).
Proof.
  intros [(o1 & Hd & _)|(u & e1 & ev1 & ev2 & Hd & Hr & ->)].
  - apply defaults_calls in Hd as (Hq & Hc). split; [done|].
    split; [|split].
    + apply filter_none, Forall_forall. intros c Hin. by apply Hc.
    + intros c mgr' Hin Hm. apply Hc in Hin as (Hn & _). congruence.
    + intros k v Hin. apply Hc in Hin as (_ & _ & [[[= -> ->] ?]|[[= -> ->] ?]]); auto.
  - apply defaults_calls in Hd as (Hq1 & Hc1).
    apply registered_calls in Hr as (_ & Hq2 & Hc2).
    rewrite calls_app, !List.filter_app, Hq1, Hq2.
    split; [done|]. split; [|split].
    + rewrite !filter_none; [done|apply Forall_forall..].
      * intros c Hin. by apply Hc2.
      * intros c Hin. by apply Hc1.
    + intros c mgr' [Hin|Hin]%elem_of_app Hm.
      * apply Hc1 in Hin as (Hn & _). congruence.
      * apply Hc2 in Hin as (Hs & _). congruence.
    + intros k v [Hin|Hin]%elem_of_app.
      * apply Hc1 in Hin as (_ & _ & [[[= -> ->] ?]|[[= -> ->] ?]]); auto.
      * apply Hc2 in Hin as (Hs & _). discriminate.
Qed.

(** The first two stages of a run, the later ones left as one: [H : run w e
    = (o, s)] becomes the branches of [ctrl.GetConfigOrDie] and of the stage
    that builds the manager. *)
Ltac build_stages H :=
  let Hc := fresh "Hconfig" in
  let Hb := fresh "Hbuilt" in
  apply run_inv in H;
  match type of H with
  | main_ran _ _ _ (env ?s) (trace ?s) => destruct s; cbn [env trace] in *
  end;
  unfold main_ran in H;
  split_stage H Hc; [| split_stage H Hb];
  repeat match goal with
  | H : keeps_env (config_loaded _) _ _ _ _ |- _ => destruct H as [? H]; invert H
  | H : keeps_env (built _ _) _ _ _ _ |- _ => destruct H as [? H]; invert H
  | H : abort _ = Some _ |- _ => cbn in H; first [discriminate H | injection H as <-]
  end;
  cbn [app] in *.

(** The two answers to the same lookup are one. *)
Ltac same_lookup :=
  repeat match goal with
  | H1 : GetRestConfigForApiExport ?w ?c ?n = _,
    H2 : GetRestConfigForApiExport ?w ?c ?n = _ |- _ =>
      rewrite H1 in H2; simplify_eq
  end.

Lemma calls_lookupEvents w rc err : calls (lookupEvents w rc err) = [].
Proof. by destruct err. Qed.

Lemma topology_lookupEvents w rc err :
  List.filter is_topology_query (lookupEvents w rc err) =
  [EvIsKcpApiGroupPresent rc; EvGetRestConfigForApiExport rc (apiExportName w)].
Proof. by destruct err. Qed.

(** ** The stage that builds the manager *)

(** X1: when the kcp API group is present and the lookup of the export hands
    back a configuration, the address of that configuration is logged, the
    cluster-aware manager is built on it next, and no other manager
    constructor is called in the run. *)
Theorem lookup_config_cluster_aware w e o s rc vw err :
  run w e = (o, s) → GetConfig w = Some rc →
  IsKcpApiGroupPresent w rc = true →
  GetRestConfigForApiExport w rc (apiExportName w) = (Some vw, err) →
  (∃ pre post,
     trace s =
       pre ++
       [EvInfo "Using virtual workspace URL" [("url", Host vw)];
        EvCall (NewClusterAwareManager vw (options w rc))] ++ post) ∧
  List.filter is_manager_construction (calls (trace s)) =
    [NewClusterAwareManager vw (options w rc)].
Proof.
  intros H Hrc Hkcp Hlookup. build_stages H.
  all: simplify_eq; try congruence; same_lookup.
  - split; [eexists _, _; reflexivity|].
    by rewrite calls_app, calls_lookupEvents.
  - apply after_build in H as (_ & Hnone & _).
    split; [eexists _, _; rewrite <- (assoc_L (++)); reflexivity|].
    rewrite !calls_app, calls_lookupEvents. cbn [app calls List.filter
      is_manager_construction]. by rewrite Hnone.
Qed.

Lemma lookup_config_cluster_aware_witness :
  (∃ pre post,
     trace (run kcpWorld ∅).2 =
       pre ++
       [EvInfo "Using virtual workspace URL" [("url", Host vwConfig)];
        EvCall (NewClusterAwareManager vwConfig (options kcpWorld baseConfig))] ++
       post) ∧
  List.filter is_manager_construction (calls (trace (run kcpWorld ∅).2)) =
    [NewClusterAwareManager vwConfig (options kcpWorld baseConfig)].
Proof.
  apply (lookup_config_cluster_aware kcpWorld ∅ _ _ baseConfig vwConfig None
           (surjective_pairing _)); reflexivity.
Defined.

(** X2: when the lookup of the export hands back a nil configuration, with or
    without an error, the process panics on [cfg.Host]: it dies with status
    2, the environment is as it was, no call was made, and the log ends with
    the lookup and, if there was an error, the line that reports it. *)
Theorem nil_config_panics w e o s rc err :
  run w e = (o, s) → GetConfig w = Some rc →
  IsKcpApiGroupPresent w rc = true →
  GetRestConfigForApiExport w rc (apiExportName w) = (None, err) →
  o = Panicked "invalid memory address or nil pointer dereference" ∧
  exit_status o = Some 2 ∧
  env s = e ∧
  calls (trace s) = [] ∧
  trace s =
    [EvIsKcpApiGroupPresent rc; EvInfo "Looking up virtual workspace URL" [];
     EvGetRestConfigForApiExport rc (apiExportName w)] ++
    match err with
    | Some e => [EvError e "error looking up virtual workspace URL" []]
    | None => []
    end.
Proof.
  intros H Hrc Hkcp Hlookup. build_stages H.
  all: simplify_eq; try congruence; same_lookup.
  rewrite calls_lookupEvents. by repeat split.
Qed.

Lemma nil_config_panics_witness :
  (run nilLookupWorld ∅).1 =
    Panicked "invalid memory address or nil pointer dereference" ∧
  exit_status (run nilLookupWorld ∅).1 = Some 2 ∧
  env (run nilLookupWorld ∅).2 = ∅ ∧
  calls (trace (run nilLookupWorld ∅).2) = [] ∧
  trace (run nilLookupWorld ∅).2 =
    [EvIsKcpApiGroupPresent baseConfig; EvInfo "Looking up virtual workspace URL" [];
     EvGetRestConfigForApiExport baseConfig (apiExportName nilLookupWorld)] ++
    [EvError "no APIExport found" "error looking up virtual workspace URL" []].
Proof.
  apply (nil_config_panics nilLookupWorld ∅ _ _ baseConfig (Some "no APIExport found")
           (surjective_pairing _)); reflexivity.
Defined.

(** X3: in every run the two questions about the topology are asked in this
    order and at most once each: the detection of the kcp API group on the
    configuration of the base cluster, as soon as that is loaded, and the
    lookup of the export named by the flag, only when the detection answers
    that the group is present. *)
Theorem topology_queries w e o s :
  run w e = (o, s) →
  List.filter is_topology_query (trace s) =
    match GetConfig w with
    | None => []
    | Some rc =>
        EvIsKcpApiGroupPresent rc ::
        (if IsKcpApiGroupPresent w rc
         then [EvGetRestConfigForApiExport rc (apiExportName w)]
         else [])
    end.
Proof.
  intros H. build_stages H.
  all: try match goal with
       | H : then_ _ _ _ _ _ _ |- _ => apply after_build in H as (Hq & _)
       end.
  all: repeat match goal with
       | H : GetConfig _ = _ |- _ => rewrite H
       | H : IsKcpApiGroupPresent _ _ = _ |- _ => rewrite H
       end.
  all: rewrite ?List.filter_app, ?topology_lookupEvents, ?Hq.
  all: reflexivity.
Qed.

Lemma topology_queries_witness :
  List.filter is_topology_query (trace (run kcpWorld ∅).2) =
    match GetConfig kcpWorld with
    | None => []
    | Some rc =>
        EvIsKcpApiGroupPresent rc ::
        (if IsKcpApiGroupPresent kcpWorld rc
         then [EvGetRestConfigForApiExport rc (apiExportName kcpWorld)]
         else [])
    end.
Proof.
  apply (topology_queries kcpWorld ∅ _ _ (surjective_pairing _)).
Defined.

(** X4: a run calls at most one manager constructor, and every call that
    works on a manager (the registrations and [mgr.Start]) works on the
    manager built by that one call, which returned without an error. *)
Theorem one_manager w e o s :
  run w e = (o, s) →
  (length (List.filter is_manager_construction (calls (trace s))) ≤ 1)%nat ∧
  (∀ c mgr, c ∈ calls (trace s) → call_manager c = Some mgr →
     List.filter is_manager_construction (calls (trace s)) = [constructor_of mgr] ∧
     fails w (constructor_of mgr) = None).
Proof.
  intros H. build_stages H.
  all: try match goal with
       | H : then_ _ _ _ _ _ _ |- _ => apply after_build in H as (_ & Hnone & Hmgr & _)
       end.
  all: unfold standardEvents.
  all: rewrite ?calls_app, ?calls_lookupEvents; cbn [app calls].
  all: cbn [List.filter is_manager_construction]; rewrite ?Hnone; cbn [length].
  all: split; [lia|].
  all: intros c mgr Hc Hm.
  all: repeat match type of Hc with
       | _ ∈ [] => by apply not_elem_of_nil in Hc
       | _ ∈ _ :: _ => apply elem_of_cons in Hc as [->|Hc]; [discriminate Hm|]
       end.
  all: by rewrite (Hmgr _ _ Hc Hm).
Qed.

Lemma one_manager_witness :
  List.filter is_manager_construction (calls (trace (run kcpWorld ∅).2)) =
    [constructor_of kcpManager] ∧
  fails kcpWorld (constructor_of kcpManager) = None.
Proof.
  apply (proj2 (one_manager kcpWorld ∅ _ _ (surjective_pairing _))
           (Start kcpManager)).
  - in_list.
  - reflexivity.
Defined.

(** ** The environment *)

(** X5: [os.Setenv] is only ever called on one of the two default variables,
    with the fixed fallback of that variable, and only when the variable read
    as the empty string when the process started. *)
Theorem setenv_only_fallbacks w e o s k v :
  run w e = (o, s) → Setenv k v ∈ calls (trace s) →
  Getenv e k = "" ∧
  ((k = "DEFAULT_RELEASE_PVC" ∧ v = "release-pvc") ∨
   (k = "DEFAULT_RELEASE_WORKSPACE_NAME" ∧ v = "release-workspace")).
Proof.
  intros H Hc. build_stages H.
  all: try match goal with
       | H : then_ _ _ _ _ _ _ |- _ => apply after_build in H as (_ & _ & _ & Hset)
       end.
  all: unfold standardEvents in Hc.
  all: rewrite ?calls_app, ?calls_lookupEvents in Hc; cbn [app calls] in Hc.
  all: repeat match type of Hc with
       | _ ∈ [] => by apply not_elem_of_nil in Hc
       | _ ∈ _ :: _ => apply elem_of_cons in Hc as [[=]|Hc]
       end.
  all: subst; by apply Hset.
Qed.

Lemma setenv_only_fallbacks_witness :
  Getenv ∅ "DEFAULT_RELEASE_PVC" = "" ∧
  (("DEFAULT_RELEASE_PVC" = "DEFAULT_RELEASE_PVC" ∧ "release-pvc" = "release-pvc") ∨
   ("DEFAULT_RELEASE_PVC" = "DEFAULT_RELEASE_WORKSPACE_NAME" ∧
    "release-pvc" = "release-workspace")).
Proof.
  apply (setenv_only_fallbacks plainWorld ∅ _ _ _ _ (surjective_pairing _)).
  in_list.
Defined.

(** ** How a run ends *)

(** In [H : run w e = (o, s)], the stage at which the run ends, branch by
    branch; of the stages before it only the loading of the configuration is
    looked at. *)
Ltac last_stage H :=
  apply run_inv in H;
  match type of H with
  | main_ran _ _ _ (env ?s) (trace ?s) => destruct s; cbn [env trace] in *
  end;
  stages H;
  repeat match goal with
  | H : keeps_env (built _ _) _ (Normal _) _ _ |- _ => clear H
  | H : defaults_applied _ _ (Normal _) _ _ |- _ => clear H
  | H : keeps_env (controllers_registered _ _) _ (Normal _) _ _ |- _ => clear H
  | H : webhooks_summary _ _ _ (Normal _) _ _ |- _ => clear H
  | H : keeps_env (probes_registered _ _) _ (Normal _) _ _ |- _ => clear H
  end;
  inv_stages; show_log.

(** The last element of a concatenation that ends with an explicit list. *)
Ltac last_of_app :=
  rewrite ?calls_app, ?calls_lookupEvents; cbn [calls app];
  rewrite ?(assoc_L (++)), ?last_app_cons; reflexivity.

(** The five ways in which a run ends. *)
Lemma outcome_cases w e o s :
  run w e = (o, s) →
  (o = Normal tt ∧
   ∃ mgr, last (calls (trace s)) = Some (Start mgr) ∧
     startReturns w mgr = true ∧ fails w (Start mgr) = None) ∨
  (o = Exited 1 ∧ GetConfig w = None ∧ s = mkState e []) ∨
  (o = Exited 1 ∧
   ∃ c err msg kvs,
     last (calls (trace s)) = Some c ∧ returned_error w c err ∧
     last (trace s) = Some (EvError err msg kvs)) ∨
  (o = Panicked "invalid memory address or nil pointer dereference" ∧
   calls (trace s) = [] ∧
   ∃ rc err,
     GetConfig w = Some rc ∧ IsKcpApiGroupPresent w rc = true ∧
     GetRestConfigForApiExport w rc (apiExportName w) = (None, err)) ∨
  (o = Blocked ∧
   ∃ mgr, last (calls (trace s)) = Some (Start mgr) ∧ startReturns w mgr = false).
Proof.
  intros H. last_stage H.
  all: first
    [ left; split; [reflexivity|]; eexists; split; [last_of_app | done]
    | right; left; by repeat split
    | do 2 right; left; split; [reflexivity|];
      eexists _, _, _, _; split; [last_of_app|]; split; [|last_of_app];
      split; [eassumption|]; intros ? ?; simplify_eq; assumption
    | do 3 right; left; split; [reflexivity|]; split; [cbn; reflexivity|]; eauto
    | do 4 right; split; [reflexivity|]; eexists; split; [last_of_app | done] ].
Qed.

(** X6: the process ends through [os.Exit] with status 0 only at
    [flag.Parse], on a request for help; with status 2 only at [flag.Parse],
    on a command line it rejects; with any other status only after the flags
    were parsed, the status is 1 then, and either the second termination
    signal ended the process, the log being cut at that moment, or the
    configuration of the cluster could not be loaded, before any call or
    line of [main], or the last call made came back with an error, which is
    the last line of the log. *)
Theorem process_exit_causes l e o tr code :
  process l e = (o, tr) → o = Exited code →
  (code = 0 ∧ flagParse l = FlagHelp ∧ tr = []) ∨
  (code = 2 ∧ flagParse l = FlagError ∧ tr = []) ∨
  (code = 1 ∧ flagParse l = FlagsParsed ∧
   ((∃ n, secondSignal l = Some n ∧
       signal_hits (secondSignal l) (run (world l) e) = true ∧
       tr = take n (trace (run (world l) e).2)) ∨
    (GetConfig (world l) = None ∧ tr = []) ∨
    ∃ c err msg kvs,
      last (calls tr) = Some c ∧ returned_error (world l) c err ∧
      last tr = Some (EvError err msg kvs))).
Proof.
  intros H Ho.
  destruct (process_inv _ _ _ _ H)
    as [(Hp & -> & ->)|[(Hp & -> & ->)|[(Hp & Hh & -> & n & Hn & ->)
       |(Hp & Hh & s & Hr & <-)]]]; simplify_eq.
  - auto.
  - auto.
  - do 2 right. split; [done|]. split; [done|]. left. eauto.
  - do 2 right.
    destruct (outcome_cases _ _ _ _ Hr)
      as [[[=] _]|[([= <-] & ? & ->)|[([= <-] & ?)|[([=] & _)|([=] & _)]]]].
    + split; [done|]. split; [done|]. right. left. by split.
    + split; [done|]. split; [done|]. right. by right.
Qed.

Lemma process_exit_causes_witness :
  (1 = 0 ∧ flagParse (launch setenvErrorWorld) = FlagHelp ∧
   (process (launch setenvErrorWorld) ∅).2 = []) ∨
  (1 = 2 ∧ flagParse (launch setenvErrorWorld) = FlagError ∧
   (process (launch setenvErrorWorld) ∅).2 = []) ∨
  (1 = 1 ∧ flagParse (launch setenvErrorWorld) = FlagsParsed ∧
   ((∃ n, secondSignal (launch setenvErrorWorld) = Some n ∧
       signal_hits (secondSignal (launch setenvErrorWorld))
         (run setenvErrorWorld ∅) = true ∧
       (process (launch setenvErrorWorld) ∅).2 =
         take n (trace (run setenvErrorWorld ∅).2)) ∨
    (GetConfig setenvErrorWorld = None ∧ (process (launch setenvErrorWorld) ∅).2 = []) ∨
    ∃ c err msg kvs,
      last (calls (process (launch setenvErrorWorld) ∅).2) = Some c ∧
      returned_error setenvErrorWorld c err ∧
      last (process (launch setenvErrorWorld) ∅).2 = Some (EvError err msg kvs))).
Proof.
  apply (process_exit_causes (launch setenvErrorWorld) ∅ _ _ 1 (surjective_pairing _)).
  reflexivity.
Defined.

(** X7: a process has no exit status exactly when its flags were parsed, no
    second termination signal arrives, and [mgr.Start] was the last call and
    never returns; a process that ends with a status other than 0 or 1
    ended with status 2, either at [flag.Parse], on a command line it
    rejects, or by the nil-pointer panic on the configuration that the
    lookup of the export handed back, before any call was made. *)
Theorem process_other_endings l e o tr :
  process l e = (o, tr) →
  (exit_status o = None ↔
     flagParse l = FlagsParsed ∧ secondSignal l = None ∧
     ∃ mgr, last (calls tr) = Some (Start mgr) ∧
       startReturns (world l) mgr = false) ∧
  (exit_status o ≠ None → exit_status o ≠ Some 0 → exit_status o ≠ Some 1 →
     exit_status o = Some 2 ∧
     ((flagParse l = FlagError ∧ tr = []) ∨
      (flagParse l = FlagsParsed ∧ calls tr = [] ∧
       ∃ rc err,
         GetConfig (world l) = Some rc ∧
         IsKcpApiGroupPresent (world l) rc = true ∧
         GetRestConfigForApiExport (world l) rc (apiExportName (world l))
           = (None, err)))).
Proof.
  intros H.
  destruct (process_inv _ _ _ _ H)
    as [(Hp & -> & ->)|[(Hp & -> & ->)|[(Hp & Hh & -> & n & Hn & ->)
       |(Hp & Hh & s & Hr & <-)]]]; cbn.
  - split; [|done]. split; [done|]. intros (? & _). congruence.
  - split; [|auto]. split; [done|]. intros (? & _). congruence.
  - split; [|done]. split; [done|]. intros (_ & ? & _). congruence.
  - destruct (outcome_cases _ _ _ _ Hr)
      as [(-> & mgr & Hl & Hs & _)|[(-> & _ & ->)
         |[(-> & c & err & ? & ? & Hl & [_ Hs] & _)
         |[(-> & Hc & ?)|(-> & mgr & Hl & Hs)]]]]; cbn.
    + split; [|done]. split; [done|].
      intros (_ & _ & mgr' & Hl' & Hs'). congruence.
    + split; [|done]. split; [done|]. by intros (_ & _ & mgr' & [=] & _).
    + split; [|done]. split; [done|].
      intros (_ & _ & mgr' & Hl' & Hs'). rewrite Hl in Hl'. injection Hl' as ->.
      rewrite (Hs _ eq_refl) in Hs'. discriminate.
    + split; [|auto]. split; [done|].
      intros (_ & _ & mgr' & Hl' & _). rewrite Hc in Hl'. discriminate.
    + split; [|done]. split; [|done]. intros _.
      split; [done|]. split; [|eauto].
      destruct (secondSignal l) as [n|]; [|done].
      cbn in Hh. rewrite Hr in Hh. cbn in Hh.
      by rewrite orb_true_r in Hh.
Qed.

Lemma process_other_endings_witness :
  (flagParse (launch runningWorld) = FlagsParsed ∧
   secondSignal (launch runningWorld) = None ∧
   ∃ mgr, last (calls (process (launch runningWorld) ∅).2) = Some (Start mgr) ∧
     startReturns runningWorld mgr = false) ∧
  (exit_status (process badFlagLaunch ∅).1 = Some 2 ∧
   ((flagParse badFlagLaunch = FlagError ∧ (process badFlagLaunch ∅).2 = []) ∨
    (flagParse badFlagLaunch = FlagsParsed ∧ calls (process badFlagLaunch ∅).2 = [] ∧
     ∃ rc err,
       GetConfig (world badFlagLaunch) = Some rc ∧
       IsKcpApiGroupPresent (world badFlagLaunch) rc = true ∧
       GetRestConfigForApiExport (world badFlagLaunch) rc
         (apiExportName (world badFlagLaunch)) = (None, err)))).
Proof.
  split.
  - apply (proj1 (process_other_endings (launch runningWorld) ∅ _ _
                    (surjective_pairing _))).
    reflexivity.
  - apply (proj2 (process_other_endings badFlagLaunch ∅ _ _ (surjective_pairing _)));
      discriminate.
Defined.

(** ** The environment after a run *)

Lemma defaulted_frame w k v e o e' evs :
  defaulted w k v e o e' evs →
  (∀ k', k' ≠ k → e' !! k' = e !! k') ∧
  (e' !! k = e !! k ∨ e' !! k = Some v) ∧
  (∀ k', is_Some (e !! k') → is_Some (e' !! k')).
Proof.
  intros H. invert H; (split; [|split]); auto.
  - intros k' Hne. by apply lookup_insert_ne.
  - right. apply lookup_insert_eq.
  - intros k' Hk'. destruct (decide (k = k')) as [->|Hne].
    + rewrite lookup_insert_eq. eauto.
    + by rewrite lookup_insert_ne.
Qed.

Lemma defaults_applied_frame w e o e' evs :
  defaults_applied w e o e' evs → defaults_frame e e'.
Proof.
  intros [(o1 & (Hf & Hk & Hs)%defaulted_frame & _)
         |(u & e1 & ev1 & ev2 & (Hf1 & Hk1 & Hs1)%defaulted_frame
                             & (Hf2 & Hk2 & Hs2)%defaulted_frame & _)].
  - split; [|split; [|split]]; [auto|done| |done].
    left. by apply Hf.
  - split; [|split; [|split]].
    + intros k Hp Hw. rewrite Hf2, Hf1 by done. done.
    + rewrite Hf2 by done. done.
    + destruct Hk2 as [->| ->]; [|by right]. left. by apply Hf1.
    + auto.
Qed.

Lemma defaults_frame_refl e : defaults_frame e e.
Proof. repeat split; auto. Qed.

(** The environment at the end of a run is the one the run started in or
    one the defaults made of it. *)
Lemma run_env w e o s :
  run w e = (o, s) →
  env s = e ∨ ∃ o' evs, defaults_applied w e o' (env s) evs.
Proof.
  intros H. apply run_inv in H.
  destruct s as [e' tr]; cbn [env trace] in *.
  stages H.
  all: repeat match goal with
       | H : keeps_env _ _ _ _ _ |- _ => destruct H as [? _]
       | H : webhooks_summary _ _ _ _ _ _ |- _ => destruct H as [? _]
       end.
  all: subst; eauto.
Qed.

(** X8: whatever happens in a run, the environment it leaves differs from
    the one it started in at most in the two default variables, which have
    their old value or their fallback; every other variable is as it was, and
    no variable is unset. *)
Theorem environment_frame w e o s :
  run w e = (o, s) → defaults_frame e (env s).
Proof.
  intros [->|(o' & evs & H)]%run_env.
  - apply defaults_frame_refl.
  - by eapply defaults_applied_frame.
Qed.

Lemma environment_frame_witness :
  defaults_frame {[ "ENABLE_WEBHOOKS" := "false" ]}
    (env (run plainWorld {[ "ENABLE_WEBHOOKS" := "false" ]}).2).
Proof.
  apply (environment_frame plainWorld _ _ _ (surjective_pairing _)).
Defined.

Lemma defaults_applied_nonempty w e e' evs :
  defaults_applied w e (Normal tt) e' evs →
  Getenv e' "DEFAULT_RELEASE_PVC" ≠ "" ∧
  Getenv e' "DEFAULT_RELEASE_WORKSPACE_NAME" ≠ "".
Proof.
  intros [(o1 & _ & []%abort_Normal)|([] & e1 & ev1 & ev2 & Hp & Hw & _)].
  apply defaulted_Normal in Hp as [(Hp & -> & _)|(_ & _ & -> & _)];
    apply defaulted_Normal in Hw as [(Hw & -> & _)|(_ & _ & -> & _)].
  all: rewrite ?Getenv_insert_eq, ?Getenv_insert_ne, ?Getenv_insert_eq in * by done.
  all: done.
Qed.

(** In a run that gets to the registration of the controllers the defaults
    were applied, and the environment is left as they made it. *)
Lemma run_after_defaults w e o s mgr :
  run w e = (o, s) → SetupControllers mgr ∈ calls (trace s) →
  ∃ evs, defaults_applied w e (Normal tt) (env s) evs.
Proof.
  intros H Hc. apply run_inv in H.
  destruct s as [e' tr]; cbn [env trace] in *.
  stages H;
    [ inv_stages; show_log; in_calls Hc
    | inv_stages; show_log; in_calls Hc
    | inv_stages; show_log; in_calls Hc
    | | | | ].
  all: clear Hc.
  all: repeat match goal with
       | H : keeps_env _ _ _ _ _ |- _ => destruct H as [? _]
       | H : webhooks_summary _ _ _ _ _ _ |- _ => destruct H as [? _]
       end.
  all: subst.
  all: repeat match goal with u : () |- _ => destruct u end.
  all: eauto.
Qed.

(** X9: when the controllers are registered, both default variables hold a
    non-empty value: the one the operator gave or the fallback. *)
Theorem defaults_set_for_controllers w e o s mgr :
  run w e = (o, s) → SetupControllers mgr ∈ calls (trace s) →
  Getenv (env s) "DEFAULT_RELEASE_PVC" ≠ "" ∧
  Getenv (env s) "DEFAULT_RELEASE_WORKSPACE_NAME" ≠ "".
Proof.
  intros H Hc.
  destruct (run_after_defaults _ _ _ _ _ H Hc) as (evs & Hd).
  by eapply defaults_applied_nonempty.
Qed.

Lemma defaults_set_for_controllers_witness :
  Getenv (env (run plainWorld {[ "DEFAULT_RELEASE_PVC" := "" ]}).2)
    "DEFAULT_RELEASE_PVC" ≠ "" ∧
  Getenv (env (run plainWorld {[ "DEFAULT_RELEASE_PVC" := "" ]}).2)
    "DEFAULT_RELEASE_WORKSPACE_NAME" ≠ "".
Proof.
  apply (defaults_set_for_controllers plainWorld _ _ _ plainManager
           (surjective_pairing _)).
  in_list.
Defined.

(** ** The default-application step as a whole *)

(** X10: when the step does not complete, the process exits with status 1
    and the workspace variable is as it was.  Either the first [os.Setenv]
    failed: then the environment is unchanged and the second default was not
    attempted; or the second one failed, and then the first default may
    already be in the environment. *)
Theorem failed_defaults w s o s' :
  applyDefaults w s = (o, s') → o ≠ Normal tt →
  o = Exited 1 ∧
  env s' !! "DEFAULT_RELEASE_WORKSPACE_NAME" =
    env s !! "DEFAULT_RELEASE_WORKSPACE_NAME" ∧
  ((∃ err,
      fails w (Setenv "DEFAULT_RELEASE_PVC" "release-pvc") = Some err ∧
      env s' = env s ∧
      trace s' =
        trace s ++
        [EvCall (Setenv "DEFAULT_RELEASE_PVC" "release-pvc");
         EvError err "unable to setup DEFAULT_RELEASE_PVC environment variable" []]) ∨
   (∃ err,
      fails w (Setenv "DEFAULT_RELEASE_WORKSPACE_NAME" "release-workspace") =
        Some err ∧
      (env s' = env s ∨
       env s' = <["DEFAULT_RELEASE_PVC" := "release-pvc"]> (env s)) ∧
      last (trace s') =
        Some (EvError err
                "unable to setup DEFAULT_RELEASE_WORKSPACE_NAME environment variable"
                []))).
Proof.
  intros (evs & Htr & H)%applyDefaults_yields Hne.
  destruct s as [e tr], s' as [e' tr']; cbn [env trace] in *. subst tr'.
  inv_stages; try done.
  all: split; [done|]; split; [by rewrite ?lookup_insert_ne|].
  - left. eauto.
  - right. eexists. split; [done|]. split; [by left|].
    cbn [app]. by rewrite last_app_cons.
  - right. eexists. split; [done|]. split; [by right|].
    cbn [app]. by rewrite last_app_cons.
Qed.

Lemma failed_defaults_witness :
  (applyDefaults setenvErrorWorld (mkState ∅ [])).1 = Exited 1 ∧
  env (applyDefaults setenvErrorWorld (mkState ∅ [])).2
    !! "DEFAULT_RELEASE_WORKSPACE_NAME" =
    env (mkState ∅ []) !! "DEFAULT_RELEASE_WORKSPACE_NAME" ∧
  ((∃ err,
      fails setenvErrorWorld (Setenv "DEFAULT_RELEASE_PVC" "release-pvc") = Some err ∧
      env (applyDefaults setenvErrorWorld (mkState ∅ [])).2 = env (mkState ∅ []) ∧
      trace (applyDefaults setenvErrorWorld (mkState ∅ [])).2 =
        trace (mkState ∅ []) ++
        [EvCall (Setenv "DEFAULT_RELEASE_PVC" "release-pvc");
         EvError err "unable to setup DEFAULT_RELEASE_PVC environment variable" []]) ∨
   (∃ err,
      fails setenvErrorWorld
        (Setenv "DEFAULT_RELEASE_WORKSPACE_NAME" "release-workspace") = Some err ∧
      (env (applyDefaults setenvErrorWorld (mkState ∅ [])).2 = env (mkState ∅ []) ∨
       env (applyDefaults setenvErrorWorld (mkState ∅ [])).2 =
         <["DEFAULT_RELEASE_PVC" := "release-pvc"]> (env (mkState ∅ []))) ∧
      last (trace (applyDefaults setenvErrorWorld (mkState ∅ [])).2) =
        Some (EvError err
                "unable to setup DEFAULT_RELEASE_WORKSPACE_NAME environment variable"
                []))).
Proof.
  apply (failed_defaults setenvErrorWorld (mkState ∅ []) _ _ (surjective_pairing _)).
  vm_compute. discriminate.
Defined.

Lemma applyDefaults_kept w s :
  Getenv (env s) "DEFAULT_RELEASE_PVC" ≠ "" →
  Getenv (env s) "DEFAULT_RELEASE_WORKSPACE_NAME" ≠ "" →
  applyDefaults w s = (Normal tt, s).
Proof.
  intros Hp Hw. unfold applyDefaults, mbind, Proc_bind.
  rewrite applyDefault_kept by done. by apply applyDefault_kept.
Qed.

(** X11: the step is idempotent as a whole: running it a second time changes
    neither the outcome nor the environment nor the log; after a first run
    that completes, the second one calls nothing. *)
Theorem applyDefaults_idempotent w s :
  (applyDefaults;; applyDefaults) w s = applyDefaults w s.
Proof.
  unfold mbind at 1. unfold Proc_bind.
  destruct (applyDefaults w s) as [[[]|code|msg|] s'] eqn:Hs; [|done..].
  apply applyDefaults_yields in Hs as (evs & _ & [Hp Hw]%defaults_applied_nonempty).
  by apply applyDefaults_kept.
Qed.

(** ** The scheme *)

(** X12: [init] adds the five groups to the scheme in the order of the
    source and stops, with a panic that carries the error, at the first
    group whose registration fails; it completes exactly when all five
    registrations succeed, and the scheme is then the one [main] hands to the
    manager. *)
Theorem init_registers_in_order addErr :
  let r := init addErr in
  r.2 `prefix_of` scheme ∧
  Forall (λ g, addErr g = None) r.2 ∧
  (r.1 = Normal tt ↔ r.2 = scheme) ∧
  (r.1 = Normal tt ↔ Forall (λ g, addErr g = None) scheme) ∧
  (∀ e, r.1 = Panicked e ↔
          ∃ g rest, scheme = r.2 ++ g :: rest ∧ addErr g = Some e) ∧
  (r.1 = Normal tt ∨ ∃ e, r.1 = Panicked e).
Proof.
  unfold init, init_then, utilruntime_Must, AddToScheme, scheme.
  destruct (addErr "clientgoscheme") as [e1|] eqn:H1; cbn;
    [|destruct (addErr "appstudiov1alpha1") as [e2|] eqn:H2; cbn;
      [|destruct (addErr "appstudioshared") as [e3|] eqn:H3; cbn;
        [|destruct (addErr "hasv1alpha1") as [e4|] eqn:H4; cbn;
          [|destruct (addErr "tektonv1beta1") as [e5|] eqn:H5; cbn]]]].
  all: split; [by eexists|].
  all: split; [by repeat constructor|].
  all: split; [split; [done|intros [=]; done]|].
  all: split;
    [split;
     [intros Hn; first [discriminate Hn | by repeat constructor]
     |intros Hall; first [reflexivity | clean_calls; congruence]]|].
  all: split; [|by eauto].
  all: intros e; split.
  all: first
    [ intros [= <-]; by eexists _, _
    | intros (g & rest & [= <- <-] & Hg); congruence ].
Qed.

(** ** No call is repeated *)

(** An explicit list of calls that differ pairwise has no duplicates. *)
Ltac distinct_calls :=
  repeat (apply NoDup_cons; split; [intros Hin; in_calls Hin|]);
  apply NoDup_nil_2.

Lemma defaults_NoDup w e o e' evs :
  defaults_applied w e o e' evs → NoDup (calls evs).
Proof.
  intros H. inv_stages. all: cbn [app calls]. all: distinct_calls.
Qed.

Lemma registered_NoDup w mgr e o e' evs :
  registered w mgr e o e' evs → NoDup (calls evs).
Proof.
  intros H. unfold registered in H.
  split_stage H Hcontrollers; [|
  split_stage H Hwebhooks; [|
  split_stage H Hprobes ]].
  all: inv_stages; show_log.
  all: distinct_calls.
Qed.

Lemma after_build_NoDup w mgr e o e' evs :
  then_ (defaults_applied w) (λ _, registered w mgr) e o e' evs →
  NoDup (calls evs) ∧ ∀ c, c ∈ calls evs → is_manager_construction c = false.
Proof.
  intros [(o1 & Hd & _)|(u & e1 & ev1 & ev2 & Hd & Hr & ->)].
  - split; [by eapply defaults_NoDup|].
    apply defaults_calls in Hd as (_ & Hc). intros c Hin. by apply Hc.
  - pose proof (defaults_NoDup _ _ _ _ _ Hd) as Hn1.
    pose proof (registered_NoDup _ _ _ _ _ _ Hr) as Hn2.
    apply defaults_calls in Hd as (_ & Hc1).
    apply registered_calls in Hr as (_ & _ & Hc2).
    rewrite calls_app. split.
    + apply NoDup_app. split; [done|]. split; [|done].
      intros c Hin1 Hin2.
      apply Hc1 in Hin1 as (Hnone & _). apply Hc2 in Hin2 as (Hsome & _).
      congruence.
    + intros c [Hin|Hin]%elem_of_app; [by apply Hc1|by apply Hc2].
Qed.

(** X13: no call is made twice in a run: at most one manager is built, each
    default is set at most once, the controllers, each webhook and each probe
    are registered at most once, and [mgr.Start] is called at most once. *)
Theorem no_call_twice w e o s :
  run w e = (o, s) → NoDup (calls (trace s)).
Proof.
  intros H. build_stages H.
  all: try match goal with
       | H : then_ _ _ _ _ _ _ |- _ => apply after_build_NoDup in H as (Hn & Hc)
       end.
  all: unfold standardEvents.
  all: rewrite ?calls_app, ?calls_lookupEvents; cbn [app calls].
  all: try (apply NoDup_cons; split;
            [intros Hin; apply Hc in Hin; discriminate|done]).
  all: distinct_calls.
Qed.

Lemma no_call_twice_witness : NoDup (calls (trace (run kcpWorld ∅).2)).
Proof.
  apply (no_call_twice kcpWorld ∅ _ _ (surjective_pairing _)).
Defined.
